(** * HTMX modal management with SweetAlert2 (static/js/htmx-modal.js)

    A shallow embedding of the script: the closure variables of the IIFE and
    the parts of the host page it touches form an explicit state, every
    function of the script is a computation over that state which may complete
    normally or throw, and the things the script does to the outside world
    (console, SweetAlert2, the Bootstrap modal, innerHTML) are appended to an
    output trace. *)

From Stdlib Require Import String Ascii List ZArith Bool Lia.
Import ListNotations.
Open Scope string_scope.

(** ** The JavaScript values and operations the script relies on *)

Module JS.

(** A value that can end up in a SweetAlert2 option: a string, or a member
    that an object literal inherits from [Object.prototype]. *)
Inductive value :=
| VString (s : string)
| VInherited (key : string).

(** Truthiness: the empty string is falsy, every function or object is
    truthy. *)
Definition truthy (v : value) : bool :=
  match v with
  | VString s => negb (s =? "")
  | VInherited _ => true
  end.

(** An argument typed [string|null]: [None] stands for null/undefined. *)
Definition of_arg (a : option string) : option value :=
  match a with
  | Some s => Some (VString s)
  | None => None
  end.

Definition truthy_opt (a : option value) : bool :=
  match a with
  | Some v => truthy v
  | None => false
  end.

(** [a || b] where [b] is always defined. *)
Definition or (a : option value) (b : value) : value :=
  match a with
  | Some v => if truthy v then v else b
  | None => b
  end.

(** [a || b] where [b] may be undefined as well. *)
Definition or_opt (a b : option value) : option value :=
  if truthy_opt a then a else b.

(** [a || b] on string arguments. *)
Definition or_string (a : option string) (b : string) : string :=
  match a with
  | Some s => if s =? "" then b else s
  | None => b
  end.

(** An object literal whose own properties all hold strings. *)
Definition object := list (string * string).

Fixpoint own (o : object) (k : string) : option string :=
  match o with
  | [] => None
  | (k', v) :: o' => if k =? k' then Some v else own o' k
  end.

(** The property names every object literal inherits. *)
Definition Object_prototype : list string :=
  [ "constructor"; "hasOwnProperty"; "isPrototypeOf";
    "propertyIsEnumerable"; "toLocaleString"; "toString"; "valueOf";
    "__proto__"; "__defineGetter__"; "__defineSetter__";
    "__lookupGetter__"; "__lookupSetter__" ].

Definition inherited (k : string) : bool :=
  existsb (String.eqb k) Object_prototype.

(** [o[k]]: own property first, then the prototype, else undefined. *)
Definition get (o : object) (k : string) : option value :=
  match own o k with
  | Some s => Some (VString s)
  | None => if inherited k then Some (VInherited k) else None
  end.

(** [String.prototype.toUpperCase] on ASCII text: a to z become A to Z and
    every other character is left alone. On text with other letters the
    runtime's function does more than this one. *)
Definition upper (c : ascii) : ascii :=
  let n := nat_of_ascii c in
  if (97 <=? n)%nat && (n <=? 122)%nat then ascii_of_nat (n - 32) else c.

Fixpoint toUpperCase (s : string) : string :=
  match s with
  | EmptyString => EmptyString
  | String c s' => String (upper c) (toUpperCase s')
  end.

End JS.

(** ** Configuration *)

Record config := {
  modalId : string;
  modalContentId : string;
  modalBackdrop : string;
  modalKeyboard : bool;
  successAutoClose : Z;
  enableLogging : bool
}.

Definition CONFIG0 : config := {|
  modalId := "global-modal";
  modalContentId := "modal-content";
  modalBackdrop := "static";
  modalKeyboard := false;
  successAutoClose := 3000;
  enableLogging := true
|}.

(** ** The outside world *)

(** A DOM element is identified by its id. *)
Definition element := string.

(** The Bootstrap modal widget built by [new bootstrap.Modal(el, opts)]. *)
Module Modal.
Record t := {
  el : element;
  backdrop : string;
  keyboard : bool;
  isShown : bool
}.
End Modal.

(** The options object handed to [Swal.fire] by [showSweetAlert]. *)
Module Swal.
Record options := {
  icon : JS.value;
  title : JS.value;
  text : string;
  confirmButtonText : string;
  confirmButtonColor : JS.value;
  timer : option Z;
  timerProgressBar : bool;
  customClass_confirmButton : string;
  buttonsStyling : bool
}.

(** The options object of [showConfirmation]. *)
Record confirm_options := {
  c_title : string;
  c_text : string;
  c_confirmButtonText : string;
  c_cancelButtonText : string
}.
End Swal.

(** What the script does to the outside world, in order. *)
Inductive effect :=
| console_log (s : string)
| console_log2 (s : string) (data : string)
| console_error (s : string)
| console_error2 (s : string) (data : string)
| Swal_fire (o : Swal.options)
| Swal_fire_confirm (o : Swal.confirm_options)
| Modal_show
| Modal_hide
| innerHTML_set (el : element) (html : string).

(** The functions passed to [setTimeout]. *)
Inductive callback :=
| cb_hideModal
| cb_alert (message : string) (type title : option string).

(** The events the script subscribes to. *)
Inductive event_name :=
| htmx_afterSwap
| htmx_beforeRequest
| htmx_beforeSwap
| htmx_responseError
| htmx_sendError
| htmx_timeout
| showAlert
| closeModal
| hidden_bs_modal
| DOMContentLoaded.

(** Ghost history of the script's own operations, kept apart from the
    observable trace: it is only used to count invocations. *)
Inductive call :=
| call_showModal
| call_hideModal
| call_clearModalContent
| call_showModalLoading
| call_showSweetAlert (message : string) (type title : option string).

Record state := {
  (* closure variables of the script *)
  CONFIG : config;
  modalInstance : option Modal.t;
  modalElement : option element;
  listeners : list event_name;
  HTMXModal_exposed : bool;
  (* host page *)
  document_body : option (list (element * string));
  readyState_loading : bool;
  bootstrap_defined : bool;
  Swal_defined : bool;
  timers : list (Z * callback);
  (* traces *)
  out : list effect;
  calls : list call
}.

(** Field updates. *)
Definition with_modalInstance (m : option Modal.t) (s : state) : state :=
  {| CONFIG := CONFIG s; modalInstance := m; modalElement := modalElement s;
     listeners := listeners s; HTMXModal_exposed := HTMXModal_exposed s;
     document_body := document_body s;
     readyState_loading := readyState_loading s;
     bootstrap_defined := bootstrap_defined s; Swal_defined := Swal_defined s;
     timers := timers s; out := out s; calls := calls s |}.

Definition with_modalElement (e : option element) (s : state) : state :=
  {| CONFIG := CONFIG s; modalInstance := modalInstance s; modalElement := e;
     listeners := listeners s; HTMXModal_exposed := HTMXModal_exposed s;
     document_body := document_body s;
     readyState_loading := readyState_loading s;
     bootstrap_defined := bootstrap_defined s; Swal_defined := Swal_defined s;
     timers := timers s; out := out s; calls := calls s |}.

Definition with_listeners (l : list event_name) (s : state) : state :=
  {| CONFIG := CONFIG s; modalInstance := modalInstance s;
     modalElement := modalElement s;
     listeners := l; HTMXModal_exposed := HTMXModal_exposed s;
     document_body := document_body s;
     readyState_loading := readyState_loading s;
     bootstrap_defined := bootstrap_defined s; Swal_defined := Swal_defined s;
     timers := timers s; out := out s; calls := calls s |}.

Definition with_document_body (b : option (list (element * string)))
    (s : state) : state :=
  {| CONFIG := CONFIG s; modalInstance := modalInstance s;
     modalElement := modalElement s;
     listeners := listeners s; HTMXModal_exposed := HTMXModal_exposed s;
     document_body := b;
     readyState_loading := readyState_loading s;
     bootstrap_defined := bootstrap_defined s; Swal_defined := Swal_defined s;
     timers := timers s; out := out s; calls := calls s |}.

Definition with_timers (t : list (Z * callback)) (s : state) : state :=
  {| CONFIG := CONFIG s; modalInstance := modalInstance s;
     modalElement := modalElement s;
     listeners := listeners s; HTMXModal_exposed := HTMXModal_exposed s;
     document_body := document_body s;
     readyState_loading := readyState_loading s;
     bootstrap_defined := bootstrap_defined s; Swal_defined := Swal_defined s;
     timers := t; out := out s; calls := calls s |}.

Definition with_out (o : list effect) (s : state) : state :=
  {| CONFIG := CONFIG s; modalInstance := modalInstance s;
     modalElement := modalElement s;
     listeners := listeners s; HTMXModal_exposed := HTMXModal_exposed s;
     document_body := document_body s;
     readyState_loading := readyState_loading s;
     bootstrap_defined := bootstrap_defined s; Swal_defined := Swal_defined s;
     timers := timers s; out := o; calls := calls s |}.

Definition with_calls (c : list call) (s : state) : state :=
  {| CONFIG := CONFIG s; modalInstance := modalInstance s;
     modalElement := modalElement s;
     listeners := listeners s; HTMXModal_exposed := HTMXModal_exposed s;
     document_body := document_body s;
     readyState_loading := readyState_loading s;
     bootstrap_defined := bootstrap_defined s; Swal_defined := Swal_defined s;
     timers := timers s; out := out s; calls := c |}.

(** ** Computations: state passing with exceptions *)

Inductive exn :=
| TypeError (msg : string)
| ReferenceError (msg : string).

Inductive completion (A : Type) :=
| Normal (a : A) (s : state)
| Throw (e : exn) (s : state).
Arguments Normal {A} a s.
Arguments Throw {A} e s.

Definition M (A : Type) := state -> completion A.

Definition ret {A} (a : A) : M A := fun s => Normal a s.

Definition bind {A B} (m : M A) (k : A -> M B) : M B :=
  fun s =>
    match m s with
    | Normal a s' => k a s'
    | Throw e s' => Throw e s'
    end.

Definition throw {A} (e : exn) : M A := fun s => Throw e s.

Definition gets {A} (f : state -> A) : M A := fun s => Normal (f s) s.

Definition modify (f : state -> state) : M unit := fun s => Normal tt (f s).

Declare Scope js_scope.
Delimit Scope js_scope with js.
Notation "x <- m ;; k" := (bind m (fun x => k))
  (at level 61, m at next level, right associativity) : js_scope.
Notation "m ;; k" := (bind m (fun _ => k))
  (at level 61, right associativity) : js_scope.
Open Scope js_scope.

(** The state a computation ends in, however it completes. *)
Definition final {A} (c : completion A) : state :=
  match c with
  | Normal _ s => s
  | Throw _ s => s
  end.

Definition throws {A} (c : completion A) : bool :=
  match c with
  | Normal _ _ => false
  | Throw _ _ => true
  end.

(** ** Host primitives *)

Definition emit (e : effect) : M unit :=
  modify (fun s => with_out (out s ++ [e]) s).

Definition enter (c : call) : M unit :=
  modify (fun s => with_calls (calls s ++ [c]) s).

Fixpoint dom_get (d : list (element * string)) (id : string) : option string :=
  match d with
  | [] => None
  | (id', html) :: d' => if id =? id' then Some html else dom_get d' id
  end.

Fixpoint dom_set (d : list (element * string)) (id : string) (html : string)
    : list (element * string) :=
  match d with
  | [] => []
  | (id', h) :: d' =>
      if id =? id' then (id', html) :: d' else (id', h) :: dom_set d' id html
  end.

(** The innerHTML of the element with the given id, if the page has one.
    The page is the flat list of its elements that have an id, each with its
    own innerHTML; how they nest is not part of it, so what is said of the
    page is said of the content element's own innerHTML and of the
    assignments the script makes. *)
Definition innerHTML (s : state) (id : string) : option string :=
  match document_body s with
  | Some d => dom_get d id
  | None => None
  end.

(** [document.getElementById(id)]: the element or null. *)
Definition document_getElementById (id : string) : M (option element) :=
  gets (fun s => match innerHTML s id with
                 | Some _ => Some id
                 | None => None
                 end).

(** [el.innerHTML = html]; a TypeError when [el] is null. *)
Definition set_innerHTML (el : option element) (html : string) : M unit :=
  match el with
  | None => throw (TypeError "Cannot set properties of null")
  | Some id =>
      modify (fun s =>
        with_document_body
          (match document_body s with
           | Some d => Some (dom_set d id html)
           | None => None
           end) s) ;;
      emit (innerHTML_set id html)
  end.

(** [typeof Swal === 'undefined'] and [typeof bootstrap !== 'undefined']. *)
Definition typeof_Swal_undefined : M bool :=
  gets (fun s => negb (Swal_defined s)).

Definition typeof_bootstrap_defined : M bool :=
  gets bootstrap_defined.

(** [Swal.fire(o)]; a ReferenceError when SweetAlert2 is not loaded. *)
Definition Swal_fire_ (o : Swal.options) : M unit :=
  d <- gets Swal_defined ;;
  if d then emit (Swal_fire o)
  else throw (ReferenceError "Swal is not defined").

Definition Swal_fire_confirm_ (o : Swal.confirm_options) : M unit :=
  d <- gets Swal_defined ;;
  if d then emit (Swal_fire_confirm o)
  else throw (ReferenceError "Swal is not defined").

(** [new bootstrap.Modal(el, {backdrop, keyboard})]. *)
Definition new_bootstrap_Modal (el : option element) (backdrop : string)
    (keyboard : bool) : M Modal.t :=
  d <- gets bootstrap_defined ;;
  if d then
    match el with
    | Some e =>
        ret {| Modal.el := e; Modal.backdrop := backdrop;
               Modal.keyboard := keyboard; Modal.isShown := false |}
    | None => throw (TypeError "Cannot read properties of null")
    end
  else throw (ReferenceError "bootstrap is not defined").

Definition shown (b : bool) (m : Modal.t) : Modal.t :=
  {| Modal.el := Modal.el m; Modal.backdrop := Modal.backdrop m;
     Modal.keyboard := Modal.keyboard m; Modal.isShown := b |}.

(** [inst.show()] and [inst.hide()]; a TypeError when [inst] is null. *)
Definition Modal_show_ (inst : option Modal.t) : M unit :=
  match inst with
  | None => throw (TypeError "Cannot read properties of null (reading 'show')")
  | Some m =>
      modify (with_modalInstance (Some (shown true m))) ;;
      emit Modal_show
  end.

Definition Modal_hide_ (inst : option Modal.t) : M unit :=
  match inst with
  | None => throw (TypeError "Cannot read properties of null (reading 'hide')")
  | Some m =>
      modify (with_modalInstance (Some (shown false m))) ;;
      emit Modal_hide
  end.

(** [setTimeout(cb, delay)]. *)
Definition setTimeout (cb : callback) (delay : Z) : M unit :=
  modify (fun s => with_timers (timers s ++ [(delay, cb)]) s).

(** [document.addEventListener], [document.body.addEventListener] (a
    TypeError while the page has no body yet) and [el.addEventListener]. *)
Definition document_addEventListener (n : event_name) : M unit :=
  modify (fun s => with_listeners (listeners s ++ [n]) s).

Definition body_addEventListener (n : event_name) : M unit :=
  b <- gets document_body ;;
  match b with
  | Some _ => modify (fun s => with_listeners (listeners s ++ [n]) s)
  | None => throw (TypeError "Cannot read properties of null")
  end.

Definition element_addEventListener (el : option element) (n : event_name)
    : M unit :=
  match el with
  | Some _ => modify (fun s => with_listeners (listeners s ++ [n]) s)
  | None => throw (TypeError "Cannot read properties of null")
  end.

(** ** The script *)

(** *** Utility functions *)

Definition log (message : string) (data : option string) : M unit :=
  c <- gets CONFIG ;;
  if enableLogging c then
    match data with
    | Some d => emit (console_log2 ("[HTMX Modal] " ++ message) d)
    | None => emit (console_log ("[HTMX Modal] " ++ message))
    end
  else ret tt.

(** The [error] argument is absent, or the detail object of an event (an
    object is always truthy), named by a string. *)
Definition logError (message : string) (error : option string) : M unit :=
  match error with
  | Some e => emit (console_error2 ("[HTMX Modal] " ++ message) e)
  | None => emit (console_error ("[HTMX Modal] " ++ message))
  end.

(** *** Modal management *)

Definition initModal : M bool :=
  el <- gets modalElement ;;
  b <- typeof_bootstrap_defined ;;
  if match el with Some _ => true | None => false end && b then
    c <- gets CONFIG ;;
    inst <- new_bootstrap_Modal el (modalBackdrop c) (modalKeyboard c) ;;
    modify (with_modalInstance (Some inst)) ;;
    log "Modal instance initialized" None ;;
    ret true
  else
    logError "Failed to initialize modal - element or Bootstrap not found" None ;;
    ret false.

Definition showModal : M unit :=
  enter call_showModal ;;
  inst <- gets modalInstance ;;
  match inst with
  | Some _ =>
      Modal_show_ inst ;;
      log "Modal shown" None
  | None =>
      logError "Cannot show modal - instance not initialized" None
  end.

Definition hideModal : M unit :=
  enter call_hideModal ;;
  inst <- gets modalInstance ;;
  match inst with
  | Some _ =>
      Modal_hide_ inst ;;
      log "Modal hidden" None
  | None => ret tt
  end.

Definition clearModalContent : M unit :=
  enter call_clearModalContent ;;
  c <- gets CONFIG ;;
  contentElement <- document_getElementById (modalContentId c) ;;
  match contentElement with
  | Some _ =>
      set_innerHTML contentElement "" ;;
      log "Modal content cleared" None
  | None => ret tt
  end.

(** The spinner markup of [showModalLoading], line by line. *)
Definition nl : string := String (ascii_of_nat 10) EmptyString.
Definition dq : string := String (ascii_of_nat 34) EmptyString.

Definition loading_html : string :=
  nl ++
  "                <div class=" ++ dq ++ "modal-body text-center py-5" ++ dq ++ ">" ++ nl ++
  "                    <div class=" ++ dq ++ "spinner-border text-primary" ++ dq ++
       " role=" ++ dq ++ "status" ++ dq ++
       " style=" ++ dq ++ "width: 3rem; height: 3rem;" ++ dq ++ ">" ++ nl ++
  "                        <span class=" ++ dq ++ "visually-hidden" ++ dq ++ ">Loading...</span>" ++ nl ++
  "                    </div>" ++ nl ++
  "                    <p class=" ++ dq ++ "mt-3 text-muted" ++ dq ++ ">Loading...</p>" ++ nl ++
  "                </div>" ++ nl ++
  "            ".

Definition showModalLoading : M unit :=
  enter call_showModalLoading ;;
  c <- gets CONFIG ;;
  contentElement <- document_getElementById (modalContentId c) ;;
  match contentElement with
  | Some _ => set_innerHTML contentElement loading_html
  | None => ret tt
  end.

(** *** SweetAlert2 management *)

Definition iconMap : JS.object :=
  [ ("success", "success"); ("error", "error"); ("warning", "warning");
    ("info", "info"); ("question", "question") ].

Definition defaultTitles : JS.object :=
  [ ("success", "Success!"); ("error", "Error!"); ("warning", "Warning!");
    ("info", "Information"); ("question", "Are you sure?") ].

Definition buttonColors : JS.object :=
  [ ("success", "#28a745"); ("error", "#dc3545"); ("warning", "#ffc107");
    ("info", "#17a2b8"); ("question", "#6c757d") ].

Definition showSweetAlert (message : string) (type title : option string)
    : M unit :=
  enter (call_showSweetAlert message type title) ;;
  let type := JS.or_string type "success" in
  undef <- typeof_Swal_undefined ;;
  if undef then
    logError "SweetAlert2 not loaded - falling back to console" None ;;
    emit (console_log ("[" ++ JS.toUpperCase type ++ "] "
                       ++ JS.or_string title "" ++ ": " ++ message))
  else
    let icon := JS.or (JS.get iconMap type) (JS.VString "info") in
    let alertTitle :=
      JS.or (JS.or_opt (JS.of_arg title) (JS.get defaultTitles type))
            (JS.VString "Notification") in
    let buttonColor := JS.or (JS.get buttonColors type) (JS.VString "#17a2b8") in
    c <- gets CONFIG ;;
    Swal_fire_ {| Swal.icon := icon;
                  Swal.title := alertTitle;
                  Swal.text := message;
                  Swal.confirmButtonText := "OK";
                  Swal.confirmButtonColor := buttonColor;
                  Swal.timer := if type =? "success"
                                then Some (successAutoClose c) else None;
                  Swal.timerProgressBar := (type =? "success");
                  Swal.customClass_confirmButton := "btn btn-primary";
                  Swal.buttonsStyling := false |} ;;
    log ("SweetAlert shown: " ++ type ++ " - " ++ message) None.

(** The deferred result of [showConfirmation]. *)
Inductive promise :=
| rejected (reason : string)
| from_Swal.

Definition showConfirmation (message : string)
    (title confirmText cancelText : option string) : M promise :=
  undef <- typeof_Swal_undefined ;;
  if undef then
    logError "SweetAlert2 not loaded" None ;;
    ret (rejected "SweetAlert2 not available")
  else
    Swal_fire_confirm_
      {| Swal.c_title := JS.or_string title "Are you sure?";
         Swal.c_text := message;
         Swal.c_confirmButtonText := JS.or_string confirmText "Yes, proceed";
         Swal.c_cancelButtonText := JS.or_string cancelText "Cancel" |} ;;
    ret from_Swal.

(** *** HTMX event handlers *)

(** The response object of an HTMX event, seen through its one method. *)
Record XMLHttpRequest := {
  getResponseHeader : string -> option string
}.

Definition on_afterSwap (target_id : string) : M unit :=
  c <- gets CONFIG ;;
  if target_id =? modalContentId c then showModal else ret tt.

Definition on_beforeRequest (target_id : string) : M unit :=
  c <- gets CONFIG ;;
  if target_id =? modalContentId c then showModalLoading else ret tt.

Definition on_beforeSwap (xhr : XMLHttpRequest) : M unit :=
  let message := getResponseHeader xhr "HX-Alert-Message" in
  let type := getResponseHeader xhr "HX-Alert-Type" in
  let title := getResponseHeader xhr "HX-Alert-Title" in
  match message with
  | Some m =>
      if JS.truthy (JS.VString m)
      then setTimeout (cb_alert m type title) 200
      else ret tt
  | None => ret tt
  end ;;
  let closeModal := getResponseHeader xhr "HX-Close-Modal" in
  match closeModal with
  | Some v => if v =? "true" then setTimeout cb_hideModal 100 else ret tt
  | None => ret tt
  end.

(** Running a timer's function. *)
Definition run_callback (cb : callback) : M unit :=
  match cb with
  | cb_hideModal => hideModal
  | cb_alert message type title =>
      showSweetAlert message (Some (JS.or_string type "success")) title
  end.

Definition on_responseError (detail : option string) : M unit :=
  logError "HTMX response error" detail ;;
  showSweetAlert
    "An error occurred while processing your request. Please try again."
    (Some "error")
    (Some "Request Failed") ;;
  hideModal.

Definition on_sendError (detail : option string) : M unit :=
  logError "HTMX network error" detail ;;
  showSweetAlert
    "Unable to connect to the server. Please check your internet connection and try again."
    (Some "error")
    (Some "Connection Error").

Definition on_timeout (detail : option string) : M unit :=
  logError "HTMX timeout" detail ;;
  showSweetAlert
    "The request took too long to complete. Please try again."
    (Some "warning")
    (Some "Request Timeout") ;;
  hideModal.

(** *** Custom event handlers *)

(** The payload of the application's showAlert signal. *)
Record alert_detail := {
  d_message : option string;
  d_type : option string;
  d_title : option string
}.

(** [a || null]. *)
Definition or_null (a : option string) : option string :=
  match a with
  | Some s => if s =? "" then None else Some s
  | None => None
  end.

Definition on_showAlert (detail : alert_detail) : M unit :=
  let message := JS.or_string (d_message detail) "Action completed" in
  let type := JS.or_string (d_type detail) "success" in
  let title := or_null (d_title detail) in
  showSweetAlert message (Some type) title.

Definition on_closeModal : M unit := hideModal.

(** *** Bootstrap modal event handler *)

Definition on_hidden_bs_modal : M unit := clearModalContent.

(** *** Global API *)

Definition showSuccess (message : string) (title : option string) : M unit :=
  showSweetAlert message (Some "success") title.

Definition showError (message : string) (title : option string) : M unit :=
  showSweetAlert message (Some "error") title.

Definition showWarning (message : string) (title : option string) : M unit :=
  showSweetAlert message (Some "warning") title.

Definition showInfo (message : string) (title : option string) : M unit :=
  showSweetAlert message (Some "info") title.

(** *** Initialization *)

Definition on_DOMContentLoaded : M unit :=
  initModal ;;
  log "HTMX Modal Management initialized on DOMContentLoaded" None.

Definition expose_HTMXModal : M unit :=
  modify (fun s =>
    {| CONFIG := CONFIG s; modalInstance := modalInstance s;
       modalElement := modalElement s; listeners := listeners s;
       HTMXModal_exposed := true;
       document_body := document_body s;
       readyState_loading := readyState_loading s;
       bootstrap_defined := bootstrap_defined s;
       Swal_defined := Swal_defined s;
       timers := timers s; out := out s; calls := calls s |}).

(** The body of the script, run once when the page loads it. *)
Definition main : M unit :=
  c <- gets CONFIG ;;
  el <- document_getElementById (modalId c) ;;
  modify (with_modalElement el) ;;
  document_addEventListener htmx_afterSwap ;;
  document_addEventListener htmx_beforeRequest ;;
  document_addEventListener htmx_beforeSwap ;;
  document_addEventListener htmx_responseError ;;
  document_addEventListener htmx_sendError ;;
  document_addEventListener htmx_timeout ;;
  body_addEventListener showAlert ;;
  body_addEventListener closeModal ;;
  match el with
  | Some _ => element_addEventListener el hidden_bs_modal
  | None => ret tt
  end ;;
  expose_HTMXModal ;;
  loading <- gets readyState_loading ;;
  if loading then document_addEventListener DOMContentLoaded
  else
    initModal ;;
    log "HTMX Modal Management initialized immediately" None.

(** ** The page around the script *)

(** What the host page decides. *)
Record page := {
  p_body : option (list (element * string));
  p_loading : bool;
  p_bootstrap : bool;
  p_Swal : bool
}.

(** The state in which the script starts on a page. *)
Definition boot (p : page) : state :=
  {| CONFIG := CONFIG0; modalInstance := None; modalElement := None;
     listeners := []; HTMXModal_exposed := false;
     document_body := p_body p; readyState_loading := p_loading p;
     bootstrap_defined := p_bootstrap p; Swal_defined := p_Swal p;
     timers := []; out := []; calls := [] |}.

Definition loaded (p : page) : state := final (main (boot p)).

(** Events as dispatched, with a payload of the shape their listener reads:
    HTMX supplies [detail.target] and [detail.xhr], and the showAlert signal
    carries a detail object. *)
Inductive event :=
| ev_afterSwap (target_id : string)
| ev_beforeRequest (target_id : string)
| ev_beforeSwap (xhr : XMLHttpRequest)
| ev_responseError (detail : option string)
| ev_sendError (detail : option string)
| ev_timeout (detail : option string)
| ev_showAlert (detail : alert_detail)
| ev_closeModal
| ev_hidden_bs_modal
| ev_DOMContentLoaded.

Definition name_of (e : event) : event_name :=
  match e with
  | ev_afterSwap _ => htmx_afterSwap
  | ev_beforeRequest _ => htmx_beforeRequest
  | ev_beforeSwap _ => htmx_beforeSwap
  | ev_responseError _ => htmx_responseError
  | ev_sendError _ => htmx_sendError
  | ev_timeout _ => htmx_timeout
  | ev_showAlert _ => showAlert
  | ev_closeModal => closeModal
  | ev_hidden_bs_modal => hidden_bs_modal
  | ev_DOMContentLoaded => DOMContentLoaded
  end.

Definition handler (e : event) : M unit :=
  match e with
  | ev_afterSwap t => on_afterSwap t
  | ev_beforeRequest t => on_beforeRequest t
  | ev_beforeSwap xhr => on_beforeSwap xhr
  | ev_responseError d => on_responseError d
  | ev_sendError d => on_sendError d
  | ev_timeout d => on_timeout d
  | ev_showAlert d => on_showAlert d
  | ev_closeModal => on_closeModal
  | ev_hidden_bs_modal => on_hidden_bs_modal
  | ev_DOMContentLoaded => on_DOMContentLoaded
  end.

Definition event_name_eqb (a b : event_name) : bool :=
  match a, b with
  | htmx_afterSwap, htmx_afterSwap
  | htmx_beforeRequest, htmx_beforeRequest
  | htmx_beforeSwap, htmx_beforeSwap
  | htmx_responseError, htmx_responseError
  | htmx_sendError, htmx_sendError
  | htmx_timeout, htmx_timeout
  | showAlert, showAlert
  | closeModal, closeModal
  | hidden_bs_modal, hidden_bs_modal
  | DOMContentLoaded, DOMContentLoaded => true
  | _, _ => false
  end.

Definition registered (n : event_name) (s : state) : bool :=
  existsb (event_name_eqb n) (listeners s).

(** Dispatching an event runs the script's listener for it, if the script
    registered one. *)
Definition dispatch (e : event) : M unit :=
  fun s => if registered (name_of e) s then handler e s else Normal tt s.

(** Everything that can happen to the script after it was loaded. *)
Inductive input :=
| in_event (e : event)
| in_timer (n : nat)
| in_show
| in_hide
| in_clear
| in_showAlert (message : string) (type title : option string)
| in_confirm (message : string) (title confirmText cancelText : option string)
| in_config (c : config)
| in_page (p : page)
| in_modal (isShown : bool).

Fixpoint remove_nth {A} (n : nat) (l : list A) : list A :=
  match n, l with
  | _, [] => []
  | O, _ :: l' => l'
  | S n', x :: l' => x :: remove_nth n' l'
  end.

Definition fire_timer (n : nat) : M unit :=
  t <- gets timers ;;
  match nth_error t n with
  | Some (_, cb) =>
      modify (with_timers (remove_nth n t)) ;;
      run_callback cb
  | None => ret tt
  end.

Definition set_config (c : config) (s : state) : state :=
  {| CONFIG := c; modalInstance := modalInstance s;
     modalElement := modalElement s; listeners := listeners s;
     HTMXModal_exposed := HTMXModal_exposed s;
     document_body := document_body s;
     readyState_loading := readyState_loading s;
     bootstrap_defined := bootstrap_defined s;
     Swal_defined := Swal_defined s;
     timers := timers s; out := out s; calls := calls s |}.

Definition set_page (p : page) (s : state) : state :=
  {| CONFIG := CONFIG s; modalInstance := modalInstance s;
     modalElement := modalElement s; listeners := listeners s;
     HTMXModal_exposed := HTMXModal_exposed s;
     document_body := p_body p;
     readyState_loading := p_loading p;
     bootstrap_defined := p_bootstrap p;
     Swal_defined := p_Swal p;
     timers := timers s; out := out s; calls := calls s |}.

Definition set_shown (b : bool) (s : state) : state :=
  match modalInstance s with
  | Some m => with_modalInstance (Some (shown b m)) s
  | None => s
  end.

(** Calls through [window.HTMXModal] need the script to have got that far. *)
Definition api {A} (m : M A) : M unit :=
  fun s =>
    if HTMXModal_exposed s then
      match m s with
      | Normal _ s' => Normal tt s'
      | Throw e s' => Throw e s'
      end
    else Normal tt s.

Definition run (i : input) : M unit :=
  match i with
  | in_event e => dispatch e
  | in_timer n => fire_timer n
  | in_show => api showModal
  | in_hide => api hideModal
  | in_clear => api clearModalContent
  | in_showAlert m t ti => api (showSweetAlert m t ti)
  | in_confirm m t c1 c2 => api (showConfirmation m t c1 c2)
  | in_config c => api (modify (set_config c))
  | in_page p => modify (set_page p)
  | in_modal b => modify (set_shown b)
  end.

Definition step (i : input) (s : state) : state := final (run i s).

(** The states the script can be in on some page. *)
Inductive reachable : state -> Prop :=
| reach_loaded (p : page) : reachable (loaded p)
| reach_step (i : input) (s : state) : reachable s -> reachable (step i s).

(** ** What the statements are written with *)

(** The alerts SweetAlert2 was asked to show, in order. *)
Definition alerts (l : list effect) : list Swal.options :=
  flat_map (fun e => match e with Swal_fire o => [o] | _ => [] end) l.

(** The number of times the Bootstrap instance was told to hide. *)
Definition hides (l : list effect) : nat :=
  length (filter (fun e => match e with Modal_hide => true | _ => false end) l).


Definition hide_calls (l : list call) : nat :=
  length (filter (fun c => match c with call_hideModal => true | _ => false end) l).

(** What [log] writes under a configuration. *)
Definition logged (c : config) (message : string) : list effect :=
  if enableLogging c then [console_log ("[HTMX Modal] " ++ message)] else [].

(** The five notification kinds with the icon, default title and accent colour
    each one stands for. *)
Inductive kind := success | error | warning | info | question.

Definition kind_name (k : kind) : string :=
  match k with
  | success => "success"
  | error => "error"
  | warning => "warning"
  | info => "info"
  | question => "question"
  end.

Definition kind_icon (k : kind) : string := kind_name k.

Definition kind_title (k : kind) : string :=
  match k with
  | success => "Success!"
  | error => "Error!"
  | warning => "Warning!"
  | info => "Information"
  | question => "Are you sure?"
  end.

Definition kind_color (k : kind) : string :=
  match k with
  | success => "#28a745"
  | error => "#dc3545"
  | warning => "#ffc107"
  | info => "#17a2b8"
  | question => "#6c757d"
  end.

(** The title an alert carries: the caller's when it is a non-empty string,
    else the given default. *)
Definition title_or (title : option string) (default : string) : JS.value :=
  JS.VString (JS.or_string title default).

(** Two pages used as concrete inputs: one with everything in place, one
    where neither Bootstrap nor SweetAlert2 was loaded. *)
Definition page_full : page :=
  {| p_body := Some [("global-modal", "<div></div>"); ("modal-content", "<form></form>")];
     p_loading := false; p_bootstrap := true; p_Swal := true |}.

Definition page_bare : page :=
  {| p_body := Some [("global-modal", "<div></div>"); ("modal-content", "<form></form>")];
     p_loading := false; p_bootstrap := false; p_Swal := false |}.

(** The page after [el.innerHTML = html] on an element it has. *)
Definition body_with (id html : string) (s : state) : state :=
  with_document_body
    match document_body s with
    | Some d => Some (dom_set d id html)
    | None => None
    end s.

(** The kind [showSweetAlert] works with: an absent or empty one is success. *)
Definition kind_used (type : option string) : string :=
  JS.or_string type "success".

(** The timers one pre-swap event adds. *)
Definition scheduled (xhr : XMLHttpRequest) : list (Z * callback) :=
  (match getResponseHeader xhr "HX-Alert-Message" with
   | Some m =>
       if JS.truthy (JS.VString m)
       then [(200%Z, cb_alert m (getResponseHeader xhr "HX-Alert-Type")
                              (getResponseHeader xhr "HX-Alert-Title"))]
       else []
   | None => []
   end ++
   match getResponseHeader xhr "HX-Close-Modal" with
   | Some v => if v =? "true" then [(100%Z, cb_hideModal)] else []
   | None => []
   end)%list.




(** A computation that leaves the element found at load time and the
    registered listeners as they are, however it completes. *)
Definition keeps_wiring {A} (m : M A) : Prop :=
  forall s,
    modalElement (final (m s)) = modalElement s
    /\ listeners (final (m s)) = listeners s.

(** The lines written with [console.log], and all console lines, of a trace. *)
Definition console_logs (l : list effect) : list effect :=
  filter (fun e => match e with
                   | console_log _ | console_log2 _ _ => true
                   | _ => false
                   end) l.

Definition console_errors (l : list effect) : list effect :=
  filter (fun e => match e with
                   | console_error _ | console_error2 _ _ => true
                   | _ => false
                   end) l.

(** The calls made on the Bootstrap instance in a trace. *)
Definition shows (l : list effect) : nat :=
  length (filter (fun e => match e with Modal_show => true | _ => false end) l).

(** The widget [initModal] builds on an element under a configuration. *)
Definition built (c : config) (el : element) : Modal.t :=
  {| Modal.el := el; Modal.backdrop := modalBackdrop c;
     Modal.keyboard := modalKeyboard c; Modal.isShown := false |}.

(** A computation that never throws. *)
Definition safe {A} (m : M A) : Prop :=
  forall s, throws (m s) = false.

(** A computation that leaves the exposure of the global API as it is. *)
Definition keeps_exposed {A} (m : M A) : Prop :=
  forall s, HTMXModal_exposed (final (m s)) = HTMXModal_exposed s.

(** The modal instance, when there is one, sits on the element found at load
    time. *)
Definition instance_on_element (s : state) : Prop :=
  forall m, modalInstance s = Some m -> modalElement s = Some (Modal.el m).

(** A computation that keeps a null instance null. *)
Definition keeps_null {A} (m : M A) : Prop :=
  forall s, modalInstance s = None -> modalInstance (final (m s)) = None.

(** A computation that keeps the instance on the element found at load. *)
Definition keeps_instance {A} (m : M A) : Prop :=
  forall s, instance_on_element s -> instance_on_element (final (m s)).

(** The listeners the script puts on the document for HTMX events. *)
Definition htmx_listeners : list event_name :=
  [htmx_afterSwap; htmx_beforeRequest; htmx_beforeSwap;
   htmx_responseError; htmx_sendError; htmx_timeout].

(** The state with logging switched on or off. *)
Definition with_logging (b : bool) (s : state) : state :=
  set_config {| modalId := modalId (CONFIG s);
                modalContentId := modalContentId (CONFIG s);
                modalBackdrop := modalBackdrop (CONFIG s);
                modalKeyboard := modalKeyboard (CONFIG s);
                successAutoClose := successAutoClose (CONFIG s);
                enableLogging := b |} s.

(** A page still loading, with the modal and both libraries in place. *)
Definition page_loading : page :=
  {| p_body := Some [("global-modal", "<div></div>"); ("modal-content", "<form></form>")];
     p_loading := true; p_bootstrap := true; p_Swal := true |}.

(** A page on which the script runs before there is a body. *)
Definition page_no_body : page :=
  {| p_body := None; p_loading := true; p_bootstrap := true; p_Swal := true |}.

(** A response that only names a kind and a title. *)
Definition xhr_only_kind : XMLHttpRequest :=
  {| getResponseHeader :=
       fun name => if name =? "HX-Alert-Type" then Some "error"
                   else if name =? "HX-Alert-Title" then Some "Oops"
                   else if name =? "HX-Close-Modal" then Some "false"
                   else None |}.

(** A response with an error message to show and the modal to close. *)
Definition xhr_error_close : XMLHttpRequest :=
  {| getResponseHeader :=
       fun name => if name =? "HX-Alert-Message" then Some "Not allowed"
                   else if name =? "HX-Alert-Type" then Some "error"
                   else if name =? "HX-Close-Modal" then Some "true"
                   else None |}.

(** A computation that leaves the pending timers as they are. *)
Definition keeps_timers {A} (m : M A) : Prop :=
  forall s, timers (final (m s)) = timers s.

(** The two timers the script sets: the hide after 100 ms and an alert, with
    a message that is not empty, after 200 ms. *)
Definition timer_expected (t : Z * callback) : Prop :=
  match t with
  | (d, cb_hideModal) => d = 100%Z
  | (d, cb_alert m _ _) => d = 200%Z /\ m <> ""
  end.

(** A string made of ASCII characters only. On such strings
    [JS.toUpperCase] is [String.prototype.toUpperCase]; statements about
    upper-cased text are made for them only. *)
Definition ascii_only (s : string) : bool :=
  forallb (fun c => (nat_of_ascii c <? 128)%nat) (list_ascii_of_string s).

(** The showAlert listener on the event as it arrives: [event.detail] is an
    object, or null when the event was dispatched without one, and then the
    first statement, which reads [event.detail.message], throws. *)
Definition showAlert_listener (detail : option alert_detail) : M unit :=
  match detail with
  | Some d => on_showAlert d
  | None => throw (TypeError "Cannot read properties of null (reading 'message')")
  end.

(** The innerHTML assignments in a trace: the element and the markup. *)
Definition writes (l : list effect) : list (element * string) :=
  flat_map (fun e => match e with
                     | innerHTML_set el html => [(el, html)]
                     | _ => []
                     end) l.

(** A computation that assigns no innerHTML. *)
Definition writes_nothing {A} (m : M A) : Prop :=
  forall s, writes (out (final (m s))) = writes (out s).

(** ** Basic facts *)

Lemma alerts_app (l1 l2 : list effect) : alerts (l1 ++ l2) = (alerts l1 ++ alerts l2)%list.
Proof. unfold alerts. apply flat_map_app. Qed.

Lemma hides_app (l1 l2 : list effect) : hides (l1 ++ l2) = (hides l1 + hides l2)%nat.
Proof. unfold hides. rewrite filter_app, length_app. reflexivity. Qed.


Lemma hide_calls_app (l1 l2 : list call) :
  hide_calls (l1 ++ l2) = (hide_calls l1 + hide_calls l2)%nat.
Proof. unfold hide_calls. rewrite filter_app, length_app. reflexivity. Qed.

Lemma alerts_logged (c : config) (m : string) : alerts (logged c m) = [].
Proof. unfold logged. destruct (enableLogging c); reflexivity. Qed.

Lemma hides_logged (c : config) (m : string) : hides (logged c m) = 0%nat.
Proof. unfold logged. destruct (enableLogging c); reflexivity. Qed.

Lemma dom_get_set_same (d : list (element * string)) (id html h0 : string) :
  dom_get d id = Some h0 -> dom_get (dom_set d id html) id = Some html.
Proof.
  induction d as [| [id' h] d IH]; simpl; intros H.
  - discriminate.
  - destruct (id =? id') eqn:E; simpl; rewrite E.
    + reflexivity.
    + apply IH, H.
Qed.

(** ** The operations, one equation each *)

Ltac run_js :=
  unfold bind, ret, gets, modify, throw, emit, enter; cbn.

Lemma log_eq (message : string) (s : state) :
  log message None s = Normal tt (with_out (out s ++ logged (CONFIG s) message) s).
Proof.
  unfold log, logged. run_js.
  destruct (enableLogging (CONFIG s)); cbn.
  - reflexivity.
  - rewrite app_nil_r. destruct s; reflexivity.
Qed.

Arguments log : simpl never.

Lemma showModal_eq (s : state) :
  showModal s =
  Normal tt
    match modalInstance s with
    | Some m =>
        with_out (out s ++ Modal_show :: logged (CONFIG s) "Modal shown")
          (with_modalInstance (Some (shown true m))
             (with_calls (calls s ++ [call_showModal]) s))
    | None =>
        with_out
          (out s ++ [console_error "[HTMX Modal] Cannot show modal - instance not initialized"])
          (with_calls (calls s ++ [call_showModal]) s)
    end.
Proof.
  unfold showModal, Modal_show_, logError. run_js.
  destruct (modalInstance s) as [m |]; run_js.
  - rewrite log_eq. cbn. rewrite <- app_assoc. reflexivity.
  - reflexivity.
Qed.

Lemma hideModal_eq (s : state) :
  hideModal s =
  Normal tt
    match modalInstance s with
    | Some m =>
        with_out (out s ++ Modal_hide :: logged (CONFIG s) "Modal hidden")
          (with_modalInstance (Some (shown false m))
             (with_calls (calls s ++ [call_hideModal]) s))
    | None => with_calls (calls s ++ [call_hideModal]) s
    end.
Proof.
  unfold hideModal, Modal_hide_. run_js.
  destruct (modalInstance s) as [m |]; run_js.
  - rewrite log_eq. cbn. rewrite <- app_assoc. reflexivity.
  - reflexivity.
Qed.

Lemma clearModalContent_eq (s : state) :
  clearModalContent s =
  Normal tt
    match innerHTML s (modalContentId (CONFIG s)) with
    | Some _ =>
        with_out
          (out s ++ innerHTML_set (modalContentId (CONFIG s)) ""
                 :: logged (CONFIG s) "Modal content cleared")
          (body_with (modalContentId (CONFIG s)) ""
             (with_calls (calls s ++ [call_clearModalContent]) s))
    | None => with_calls (calls s ++ [call_clearModalContent]) s
    end.
Proof.
  unfold clearModalContent, document_getElementById, set_innerHTML, innerHTML.
  run_js.
  destruct (document_body s) as [d |]; run_js.
  - destruct (dom_get d (modalContentId (CONFIG s))); run_js.
    + rewrite log_eq. unfold body_with. cbn. rewrite <- app_assoc. reflexivity.
    + reflexivity.
  - reflexivity.
Qed.

Lemma showModalLoading_eq (s : state) :
  showModalLoading s =
  Normal tt
    match innerHTML s (modalContentId (CONFIG s)) with
    | Some _ =>
        with_out
          (out s ++ [innerHTML_set (modalContentId (CONFIG s)) loading_html])
          (body_with (modalContentId (CONFIG s)) loading_html
             (with_calls (calls s ++ [call_showModalLoading]) s))
    | None => with_calls (calls s ++ [call_showModalLoading]) s
    end.
Proof.
  unfold showModalLoading, document_getElementById, set_innerHTML, innerHTML.
  run_js.
  destruct (document_body s) as [d |]; run_js.
  - destruct (dom_get d (modalContentId (CONFIG s))); run_js; reflexivity.
  - reflexivity.
Qed.

Lemma innerHTML_body_with (id html h0 : string) (s : state) :
  innerHTML s id = Some h0 -> innerHTML (body_with id html s) id = Some html.
Proof.
  unfold innerHTML, body_with. cbn.
  destruct (document_body s) as [d |]; [| discriminate].
  apply dom_get_set_same.
Qed.

Lemma showSweetAlert_fallback_eq (message : string) (type title : option string)
    (s : state) :
  Swal_defined s = false ->
  showSweetAlert message type title s =
  Normal tt
    (with_out
       (out s ++
        [console_error "[HTMX Modal] SweetAlert2 not loaded - falling back to console";
         console_log ("[" ++ JS.toUpperCase (kind_used type) ++ "] "
                      ++ JS.or_string title "" ++ ": " ++ message)])
       (with_calls (calls s ++ [call_showSweetAlert message type title]) s)).
Proof.
  intros H. unfold showSweetAlert, typeof_Swal_undefined, logError, kind_used.
  run_js. rewrite H. run_js. rewrite <- app_assoc. reflexivity.
Qed.

Lemma showSweetAlert_fire_eq (message : string) (type title : option string)
    (s : state) :
  Swal_defined s = true ->
  exists o,
    showSweetAlert message type title s =
    Normal tt
      (with_out
         (out s ++ Swal_fire o
                :: logged (CONFIG s)
                     ("SweetAlert shown: " ++ kind_used type ++ " - " ++ message))
         (with_calls (calls s ++ [call_showSweetAlert message type title]) s))
    /\ Swal.icon o = JS.or (JS.get iconMap (kind_used type)) (JS.VString "info")
    /\ Swal.title o =
       JS.or (JS.or_opt (JS.of_arg title) (JS.get defaultTitles (kind_used type)))
             (JS.VString "Notification")
    /\ Swal.confirmButtonColor o =
       JS.or (JS.get buttonColors (kind_used type)) (JS.VString "#17a2b8")
    /\ Swal.text o = message
    /\ Swal.timer o =
       (if kind_used type =? "success" then Some (successAutoClose (CONFIG s)) else None)
    /\ Swal.timerProgressBar o = (kind_used type =? "success").
Proof.
  intros H. eexists. split.
  - unfold showSweetAlert, typeof_Swal_undefined, Swal_fire_, kind_used.
    run_js. rewrite H. run_js. rewrite H. run_js.
    rewrite log_eq. cbn. rewrite <- app_assoc. reflexivity.
  - cbn. repeat split; reflexivity.
Qed.

Arguments showModal : simpl never.
Arguments hideModal : simpl never.
Arguments clearModalContent : simpl never.
Arguments showModalLoading : simpl never.
Arguments showSweetAlert : simpl never.

(** ** Lookups in the three tables of [showSweetAlert] *)

Lemma iconMap_kind (k : kind) :
  JS.get iconMap (kind_name k) = Some (JS.VString (kind_icon k)).
Proof. destruct k; reflexivity. Qed.

Lemma defaultTitles_kind (k : kind) :
  JS.get defaultTitles (kind_name k) = Some (JS.VString (kind_title k)).
Proof. destruct k; reflexivity. Qed.

Lemma buttonColors_kind (k : kind) :
  JS.get buttonColors (kind_name k) = Some (JS.VString (kind_color k)).
Proof. destruct k; reflexivity. Qed.

Lemma kind_title_truthy (k : kind) : JS.truthy (JS.VString (kind_title k)) = true.
Proof. destruct k; reflexivity. Qed.

Lemma kind_icon_truthy (k : kind) : JS.truthy (JS.VString (kind_icon k)) = true.
Proof. destruct k; reflexivity. Qed.

Lemma kind_color_truthy (k : kind) : JS.truthy (JS.VString (kind_color k)) = true.
Proof. destruct k; reflexivity. Qed.

(** A name that is none of the five kinds is no own property of a table that
    has exactly those five keys. *)
Lemma own_unrecognized (v1 v2 v3 v4 v5 t : string) :
  (forall k, t <> kind_name k) ->
  JS.own [ ("success", v1); ("error", v2); ("warning", v3);
           ("info", v4); ("question", v5) ] t = None.
Proof.
  intros H. cbn [JS.own].
  destruct (String.eqb_spec t "success") as [E | _]; [exact (False_ind _ (H success E)) |].
  destruct (String.eqb_spec t "error") as [E | _]; [exact (False_ind _ (H error E)) |].
  destruct (String.eqb_spec t "warning") as [E | _]; [exact (False_ind _ (H warning E)) |].
  destruct (String.eqb_spec t "info") as [E | _]; [exact (False_ind _ (H info E)) |].
  destruct (String.eqb_spec t "question") as [E | _]; [exact (False_ind _ (H question E)) |].
  reflexivity.
Qed.

Lemma get_unrecognized (v1 v2 v3 v4 v5 t : string) :
  (forall k, t <> kind_name k) ->
  JS.inherited t = false ->
  JS.get [ ("success", v1); ("error", v2); ("warning", v3);
           ("info", v4); ("question", v5) ] t = None.
Proof.
  intros H Hi. unfold JS.get. rewrite own_unrecognized by exact H.
  rewrite Hi. reflexivity.
Qed.

Lemma or_title (title : option string) (d : string) :
  JS.truthy (JS.VString d) = true ->
  JS.or (JS.or_opt (JS.of_arg title) (Some (JS.VString d))) (JS.VString "Notification")
  = title_or title d.
Proof.
  intros Hd. unfold title_or, JS.or_opt, JS.or_string, JS.or, JS.of_arg, JS.truthy_opt.
  destruct title as [t |].
  - unfold JS.truthy at 1. destruct (t =? "") eqn:E; cbn [negb].
    + rewrite Hd. reflexivity.
    + unfold JS.truthy. rewrite E. reflexivity.
  - rewrite Hd. reflexivity.
Qed.

Lemma or_title_none (title : option string) :
  JS.or (JS.or_opt (JS.of_arg title) None) (JS.VString "Notification")
  = title_or title "Notification".
Proof.
  unfold title_or, JS.or_opt, JS.or_string, JS.or, JS.of_arg, JS.truthy_opt.
  destruct title as [t |]; [| reflexivity].
  unfold JS.truthy at 1. destruct (t =? "") eqn:E; cbn [negb].
  - reflexivity.
  - unfold JS.truthy. rewrite E. reflexivity.
Qed.

(** ** The pre-swap handler, one equation *)

Lemma with_timers_same (s : state) : with_timers (timers s) s = s.
Proof. destruct s; reflexivity. Qed.

Lemma on_beforeSwap_eq (xhr : XMLHttpRequest) (s : state) :
  on_beforeSwap xhr s = Normal tt (with_timers (timers s ++ scheduled xhr) s).
Proof.
  unfold on_beforeSwap, scheduled, setTimeout.
  destruct (getResponseHeader xhr "HX-Alert-Message") as [m |];
    [destruct (JS.truthy (JS.VString m)) |];
    (destruct (getResponseHeader xhr "HX-Close-Modal") as [v |];
      [destruct (v =? "true") |]);
    run_js; rewrite <- ?app_assoc, ?app_nil_r, ?with_timers_same; reflexivity.
Qed.


(** ** What no step ever changes *)

Lemma keeps_bind {A B} (m : M A) (k : A -> M B) :
  keeps_wiring m -> (forall a, keeps_wiring (k a)) -> keeps_wiring (bind m k).
Proof.
  intros Hm Hk s. unfold bind. specialize (Hm s).
  destruct (m s) as [a s1 | e s1]; cbn in *.
  - destruct (Hk a s1) as [H1 H2]. destruct Hm as [H3 H4].
    split; congruence.
  - exact Hm.
Qed.

Lemma keeps_log (message : string) : keeps_wiring (log message None).
Proof. intros s. rewrite log_eq. split; reflexivity. Qed.

Lemma keeps_logError (message : string) (e : option string) :
  keeps_wiring (logError message e).
Proof. intros s. unfold logError. destruct e; split; reflexivity. Qed.

Lemma keeps_showModal : keeps_wiring showModal.
Proof.
  intros s. rewrite showModal_eq. destruct (modalInstance s); split; reflexivity.
Qed.

Lemma keeps_hideModal : keeps_wiring hideModal.
Proof.
  intros s. rewrite hideModal_eq. destruct (modalInstance s); split; reflexivity.
Qed.

Lemma keeps_clearModalContent : keeps_wiring clearModalContent.
Proof.
  intros s. rewrite clearModalContent_eq.
  destruct (innerHTML s (modalContentId (CONFIG s))); split; reflexivity.
Qed.

Lemma keeps_showModalLoading : keeps_wiring showModalLoading.
Proof.
  intros s. rewrite showModalLoading_eq.
  destruct (innerHTML s (modalContentId (CONFIG s))); split; reflexivity.
Qed.

Lemma keeps_showSweetAlert (message : string) (type title : option string) :
  keeps_wiring (showSweetAlert message type title).
Proof.
  intros s. destruct (Swal_defined s) eqn:E.
  - destruct (showSweetAlert_fire_eq message type title s E) as (o & Heq & _).
    rewrite Heq. split; reflexivity.
  - rewrite showSweetAlert_fallback_eq by exact E. split; reflexivity.
Qed.

Lemma keeps_showConfirmation (message : string)
    (title confirmText cancelText : option string) :
  keeps_wiring (showConfirmation message title confirmText cancelText).
Proof.
  intros s. unfold showConfirmation, typeof_Swal_undefined, Swal_fire_confirm_, logError.
  run_js. destruct (Swal_defined s) eqn:E; run_js; [rewrite E |]; split; reflexivity.
Qed.

Lemma keeps_initModal : keeps_wiring initModal.
Proof.
  intros s. unfold initModal, typeof_bootstrap_defined, new_bootstrap_Modal, logError.
  run_js.
  destruct (modalElement s) as [el |] eqn:Hel, (bootstrap_defined s) eqn:Hb; run_js;
    rewrite ?Hb; run_js; rewrite ?log_eq; cbn; split; auto.
Qed.

Lemma keeps_handler (e : event) : keeps_wiring (handler e).
Proof.
  destruct e; cbn [handler].
  - intros s. unfold on_afterSwap. run_js.
    destruct (target_id =? modalContentId (CONFIG s));
      [apply keeps_showModal | split; reflexivity].
  - intros s. unfold on_beforeRequest. run_js.
    destruct (target_id =? modalContentId (CONFIG s));
      [apply keeps_showModalLoading | split; reflexivity].
  - intros s. rewrite on_beforeSwap_eq. split; reflexivity.
  - unfold on_responseError.
    apply keeps_bind; [apply keeps_logError | intros _].
    apply keeps_bind; [apply keeps_showSweetAlert | intros _].
    apply keeps_hideModal.
  - unfold on_sendError.
    apply keeps_bind; [apply keeps_logError | intros _].
    apply keeps_showSweetAlert.
  - unfold on_timeout.
    apply keeps_bind; [apply keeps_logError | intros _].
    apply keeps_bind; [apply keeps_showSweetAlert | intros _].
    apply keeps_hideModal.
  - apply keeps_showSweetAlert.
  - apply keeps_hideModal.
  - apply keeps_clearModalContent.
  - unfold on_DOMContentLoaded.
    apply keeps_bind; [apply keeps_initModal | intros _; apply keeps_log].
Qed.

Lemma keeps_api {A} (m : M A) : keeps_wiring m -> keeps_wiring (api m).
Proof.
  intros H s. unfold api. destruct (HTMXModal_exposed s); [| split; reflexivity].
  specialize (H s). destruct (m s); exact H.
Qed.

Lemma keeps_run (i : input) : keeps_wiring (run i).
Proof.
  destruct i; cbn [run].
  - intros s. unfold dispatch.
    destruct (registered (name_of e) s); [apply keeps_handler | split; reflexivity].
  - intros s. unfold fire_timer. run_js.
    destruct (nth_error (timers s) n) as [[d cb] |]; [| split; reflexivity].
    run_js. destruct cb; cbn [run_callback].
    + apply (keeps_hideModal (with_timers (remove_nth n (timers s)) s)).
    + apply (keeps_showSweetAlert _ _ _ (with_timers (remove_nth n (timers s)) s)).
  - apply keeps_api, keeps_showModal.
  - apply keeps_api, keeps_hideModal.
  - apply keeps_api, keeps_clearModalContent.
  - apply keeps_api, keeps_showSweetAlert.
  - apply keeps_api, keeps_showConfirmation.
  - apply keeps_api. intros s. split; reflexivity.
  - intros s. split; reflexivity.
  - intros s. unfold modify, set_shown. cbn.
    destruct (modalInstance s); split; reflexivity.
Qed.

(** When the script found the modal element as it was loaded, it registered
    its listener for the end of the hide transition. *)
Lemma loaded_wiring (p : page) :
  modalElement (loaded p) <> None ->
  registered hidden_bs_modal (loaded p) = true.
Proof.
  destruct p as [[d |] loading bs sw].
  - destruct loading, bs; vm_compute;
      match goal with
      | |- context [match ?x with Some _ => _ | None => _ end] => destruct x
      end; vm_compute; intros H; try reflexivity; exfalso; apply H; reflexivity.
  - vm_compute. intros H. exfalso. apply H. reflexivity.
Qed.

Lemma reachable_wiring (s : state) :
  reachable s ->
  modalElement s <> None -> registered hidden_bs_modal s = true.
Proof.
  induction 1 as [p | i s Hs IH].
  - apply loaded_wiring.
  - unfold step, registered. destruct (keeps_run i s) as [He Hl].
    rewrite He, Hl. exact IH.
Qed.

(** ** Notification presenter *)

(** C1 (as amended). With SweetAlert2 loaded, [showSweetAlert] fires exactly
    one alert. For each of the five kinds (an absent or empty kind counting as
    success) the alert carries that kind's icon and button colour, and as its
    title the caller's non-empty title or else that kind's default title. For
    a kind that is none of the five and no name inherited from
    [Object.prototype], the icon and colour are those of info and the title is
    the caller's non-empty title or else "Notification". *)
Theorem showSweetAlert_triple (message : string) (type title : option string)
    (s : state) :
  Swal_defined s = true ->
  exists o,
    alerts (out (final (showSweetAlert message type title s)))
      = (alerts (out s) ++ [o])%list
    /\ (forall k, kind_used type = kind_name k ->
          Swal.icon o = JS.VString (kind_icon k)
          /\ Swal.title o = title_or title (kind_title k)
          /\ Swal.confirmButtonColor o = JS.VString (kind_color k))
    /\ ((forall k, kind_used type <> kind_name k) ->
        JS.inherited (kind_used type) = false ->
          Swal.icon o = JS.VString (kind_icon info)
          /\ Swal.title o = title_or title "Notification"
          /\ Swal.confirmButtonColor o = JS.VString (kind_color info)).
Proof.
  intros H.
  destruct (showSweetAlert_fire_eq message type title s H)
    as (o & Heq & Hicon & Htitle & Hcolor & _).
  exists o. split; [| split].
  - rewrite Heq. cbn. rewrite alerts_app. cbn. rewrite alerts_logged. reflexivity.
  - intros k Hk. rewrite Hicon, Htitle, Hcolor, Hk.
    rewrite iconMap_kind, defaultTitles_kind, buttonColors_kind.
    cbn [JS.or]. rewrite kind_icon_truthy, kind_color_truthy.
    rewrite or_title by apply kind_title_truthy.
    repeat split; reflexivity.
  - intros Hun Hin. rewrite Hicon, Htitle, Hcolor.
    unfold iconMap, defaultTitles, buttonColors.
    rewrite !get_unrecognized by assumption.
    rewrite or_title_none. repeat split; reflexivity.
Qed.

Lemma showSweetAlert_triple_witness :
  Swal_defined (loaded page_full) = true
  /\ exists o,
       alerts (out (final (showSweetAlert "Saved" (Some "warning") None (loaded page_full))))
         = [o]
       /\ Swal.icon o = JS.VString "warning"
       /\ Swal.title o = JS.VString "Warning!"
       /\ Swal.confirmButtonColor o = JS.VString "#ffc107".
Proof.
  split; [reflexivity |].
  destruct (showSweetAlert_triple "Saved" (Some "warning") None (loaded page_full) eq_refl)
    as (o & Ho & Hk & _).
  exists o. split; [exact Ho |].
  exact (Hk warning eq_refl).
Defined.

(** C1, as stated, fails for the title: an unrecognized kind with no title
    gets "Notification", which is not the default title of info. *)
Lemma unrecognized_kind_title_counterexample :
  (forall k, "custom" <> kind_name k)
  /\ JS.get defaultTitles "info" = Some (JS.VString "Information")
  /\ exists o,
       alerts (out (final (showSweetAlert "Saved" (Some "custom") None (loaded page_full))))
         = [o]
       /\ Swal.icon o = JS.VString "info"
       /\ Swal.title o = JS.VString "Notification"
       /\ Swal.title o <> JS.VString "Information".
Proof.
  split; [intros k; destruct k; discriminate |].
  split; [reflexivity |].
  eexists. split; [vm_compute; reflexivity |].
  cbn. repeat split; discriminate.
Qed.

(** C3. With SweetAlert2 loaded, [showSweetAlert] fires exactly one alert;
    for kind success (given, absent or empty) its auto-dismiss timer is exactly
    the configured [successAutoClose], 3000 ms under the script's own
    configuration, and the countdown bar is on; for every other kind there is
    no timer and no countdown bar. *)
Theorem success_auto_dismiss (message : string) (type title : option string)
    (s : state) :
  Swal_defined s = true ->
  exists o,
    alerts (out (final (showSweetAlert message type title s)))
      = (alerts (out s) ++ [o])%list
    /\ (kind_used type = "success" ->
          Swal.timer o = Some (successAutoClose (CONFIG s))
          /\ Swal.timerProgressBar o = true
          /\ (CONFIG s = CONFIG0 -> Swal.timer o = Some 3000%Z))
    /\ (kind_used type <> "success" ->
          Swal.timer o = None /\ Swal.timerProgressBar o = false).
Proof.
  intros H.
  destruct (showSweetAlert_fire_eq message type title s H)
    as (o & Heq & _ & _ & _ & _ & Htimer & Hbar).
  exists o. split; [| split].
  - rewrite Heq. cbn. rewrite alerts_app. cbn. rewrite alerts_logged. reflexivity.
  - intros Hk. rewrite Htimer, Hbar, Hk. cbn.
    repeat split. intros Hc. rewrite Hc. reflexivity.
  - intros Hk. rewrite Htimer, Hbar.
    destruct (String.eqb_spec (kind_used type) "success") as [E | _];
      [contradiction | split; reflexivity].
Qed.

Lemma success_auto_dismiss_witness :
  Swal_defined (loaded page_full) = true
  /\ exists o,
       alerts (out (final (showSweetAlert "Saved" None None (loaded page_full)))) = [o]
       /\ Swal.timer o = Some 3000%Z
       /\ Swal.timerProgressBar o = true.
Proof.
  split; [reflexivity |].
  destruct (success_auto_dismiss "Saved" None None (loaded page_full) eq_refl)
    as (o & Ho & Hs & _).
  exists o. split; [exact Ho |].
  destruct (Hs eq_refl) as (_ & Hbar & H3000).
  split; [exact (H3000 eq_refl) | exact Hbar].
Defined.

(** C8. When SweetAlert2 is not loaded, [showSweetAlert] completes normally
    having written one error line and then "[KIND] title: message" to the
    console (title empty when absent), fires no alert, and leaves everything
    but the console untouched; for a kind of ASCII characters KIND is that
    kind in upper case. And whether or not SweetAlert2 is loaded,
    [showSweetAlert] never throws. *)
Theorem showSweetAlert_console_fallback (message : string)
    (type title : option string) (s : state) :
  Swal_defined s = false ->
  (exists s' KIND,
     showSweetAlert message type title s = Normal tt s'
     /\ out s' =
        (out s ++
         [console_error "[HTMX Modal] SweetAlert2 not loaded - falling back to console";
          console_log ("[" ++ KIND ++ "] "
                       ++ JS.or_string title "" ++ ": " ++ message)])%list
     /\ (ascii_only (kind_used type) = true ->
         KIND = JS.toUpperCase (kind_used type))
     /\ alerts (out s') = alerts (out s)
     /\ document_body s' = document_body s
     /\ modalInstance s' = modalInstance s
     /\ timers s' = timers s)
  /\ (forall t : state, throws (showSweetAlert message type title t) = false).
Proof.
  intros H. split.
  - exists (with_out
              (out s ++
               [console_error "[HTMX Modal] SweetAlert2 not loaded - falling back to console";
                console_log ("[" ++ JS.toUpperCase (kind_used type) ++ "] "
                             ++ JS.or_string title "" ++ ": " ++ message)])
              (with_calls (calls s ++ [call_showSweetAlert message type title]) s)).
    exists (JS.toUpperCase (kind_used type)).
    split; [apply showSweetAlert_fallback_eq, H |].
    cbn. rewrite alerts_app. cbn. rewrite app_nil_r. repeat split.
  - intros t. destruct (Swal_defined t) eqn:E.
    + destruct (showSweetAlert_fire_eq message type title t E) as (o & Heq & _).
      rewrite Heq. reflexivity.
    + rewrite showSweetAlert_fallback_eq by exact E. reflexivity.
Qed.

Lemma showSweetAlert_console_fallback_witness :
  Swal_defined (loaded page_bare) = false
  /\ ascii_only (kind_used (Some "error")) = true
  /\ exists s',
       showSweetAlert "Disk full" (Some "error") (Some "Oops") (loaded page_bare)
         = Normal tt s'
       /\ out s' =
          (out (loaded page_bare) ++
           [console_error "[HTMX Modal] SweetAlert2 not loaded - falling back to console";
            console_log "[ERROR] Oops: Disk full"])%list.
Proof.
  split; [reflexivity |]. split; [reflexivity |].
  destruct (showSweetAlert_console_fallback "Disk full" (Some "error") (Some "Oops")
              (loaded page_bare) eq_refl) as ((s' & K & Hrun & Hout & HK & _) & _).
  exists s'. split; [exact Hrun |].
  rewrite Hout, (HK eq_refl). reflexivity.
Defined.

(** ** Modal controller *)

(** C2 (as amended). While the modal instance is null, [showModal] completes
    normally, writes exactly one error line to the console and touches neither
    the page nor the instance; [hideModal] completes normally, writes nothing
    at all and touches neither the page nor the instance. *)
Theorem show_hide_uninitialized (s : state) :
  modalInstance s = None ->
  (exists s',
     showModal s = Normal tt s'
     /\ out s' =
        (out s ++
         [console_error "[HTMX Modal] Cannot show modal - instance not initialized"])%list
     /\ document_body s' = document_body s
     /\ modalInstance s' = None)
  /\ (exists s',
        hideModal s = Normal tt s'
        /\ out s' = out s
        /\ document_body s' = document_body s
        /\ modalInstance s' = None).
Proof.
  intros H. split; eexists.
  - rewrite showModal_eq, H. cbn. repeat split. exact H.
  - rewrite hideModal_eq, H. cbn. repeat split. exact H.
Qed.

Lemma show_hide_uninitialized_witness :
  modalInstance (loaded page_bare) = None
  /\ (exists s',
        showModal (loaded page_bare) = Normal tt s'
        /\ out s' =
           (out (loaded page_bare) ++
            [console_error "[HTMX Modal] Cannot show modal - instance not initialized"])%list
        /\ document_body s' = document_body (loaded page_bare)
        /\ modalInstance s' = None)
  /\ (exists s',
        hideModal (loaded page_bare) = Normal tt s'
        /\ out s' = out (loaded page_bare)
        /\ document_body s' = document_body (loaded page_bare)
        /\ modalInstance s' = None).
Proof.
  split; [reflexivity |].
  exact (show_hide_uninitialized (loaded page_bare) eq_refl).
Defined.

(** C2, as stated, fails for hide: before initialization succeeded,
    [hideModal] logs no error, the console is left as it was. *)
Lemma hide_uninitialized_counterexample :
  modalInstance (loaded page_bare) = None
  /\ throws (hideModal (loaded page_bare)) = false
  /\ out (final (hideModal (loaded page_bare))) = out (loaded page_bare)
  /\ forall msg, ~ In (console_error msg)
                      (skipn (length (out (loaded page_bare)))
                             (out (final (hideModal (loaded page_bare))))).
Proof.
  split; [vm_compute; reflexivity |].
  split; [vm_compute; reflexivity |].
  split; [vm_compute; reflexivity |].
  intros msg. vm_compute. intros F; exact F.
Qed.

(** C10. [clearModalContent] and [showModalLoading] never consult the modal
    instance: in every state, whatever the instance is (null included), they
    complete normally; when the page has the content element they set its
    innerHTML (to the empty string, to the spinner markup) and leave the
    instance alone; when it has none they do nothing at all, not even log. *)
Theorem content_ops_ignore_modal (s : state) :
  let id := modalContentId (CONFIG s) in
  match innerHTML s id with
  | Some _ =>
      (exists s',
         clearModalContent s = Normal tt s'
         /\ innerHTML s' id = Some ""
         /\ In (innerHTML_set id "") (out s')
         /\ modalInstance s' = modalInstance s)
      /\ (exists s',
            showModalLoading s = Normal tt s'
            /\ innerHTML s' id = Some loading_html
            /\ In (innerHTML_set id loading_html) (out s')
            /\ modalInstance s' = modalInstance s)
  | None =>
      clearModalContent s
        = Normal tt (with_calls (calls s ++ [call_clearModalContent]) s)
      /\ showModalLoading s
        = Normal tt (with_calls (calls s ++ [call_showModalLoading]) s)
      /\ out (final (clearModalContent s)) = out s
      /\ out (final (showModalLoading s)) = out s
      /\ document_body (final (clearModalContent s)) = document_body s
      /\ document_body (final (showModalLoading s)) = document_body s
  end.
Proof.
  intros id. subst id.
  rewrite clearModalContent_eq, showModalLoading_eq.
  destruct (innerHTML s (modalContentId (CONFIG s))) as [h |] eqn:E.
  - split; eexists; (split; [reflexivity |]); cbn; repeat split.
    + exact (innerHTML_body_with _ "" h
               (with_calls (calls s ++ [call_clearModalContent]) s) E).
    + apply in_or_app. right. left. reflexivity.
    + exact (innerHTML_body_with _ loading_html h
               (with_calls (calls s ++ [call_showModalLoading]) s) E).
    + apply in_or_app. right. left. reflexivity.
  - cbn. repeat split.
Qed.

(** C9. In every state the script can reach on a page where it found the
    modal element, the end of the modal's hide transition (the
    hidden.bs.modal event on that element) runs [clearModalContent] exactly
    once and without an exception, and afterwards the content element, if the
    page has one, has empty innerHTML. *)
Theorem hidden_clears_content (s : state) :
  reachable s ->
  modalElement s <> None ->
  exists s',
    dispatch ev_hidden_bs_modal s = Normal tt s'
    /\ calls s' = (calls s ++ [call_clearModalContent])%list
    /\ CONFIG s' = CONFIG s
    /\ (forall html,
          innerHTML s' (modalContentId (CONFIG s')) = Some html -> html = "")
    /\ (innerHTML s (modalContentId (CONFIG s)) <> None ->
        innerHTML s' (modalContentId (CONFIG s')) = Some "").
Proof.
  intros Hr He. unfold dispatch. cbn [name_of handler].
  rewrite (reachable_wiring s Hr He).
  unfold on_hidden_bs_modal. rewrite clearModalContent_eq.
  destruct (innerHTML s (modalContentId (CONFIG s))) as [h |] eqn:E.
  - eexists. split; [reflexivity |]. cbn [calls with_out with_calls body_with
      with_document_body CONFIG].
    assert (Hc : innerHTML
                   (with_out
                      (out s ++ innerHTML_set (modalContentId (CONFIG s)) ""
                             :: logged (CONFIG s) "Modal content cleared")
                      (body_with (modalContentId (CONFIG s)) ""
                         (with_calls (calls s ++ [call_clearModalContent]) s)))
                   (modalContentId (CONFIG s)) = Some "").
    { exact (innerHTML_body_with _ "" h
               (with_calls (calls s ++ [call_clearModalContent]) s) E). }
    split; [reflexivity |]. split; [reflexivity |]. split.
    + intros html Hh. rewrite Hc in Hh. congruence.
    + intros _. exact Hc.
  - eexists. split; [reflexivity |]. cbn [calls with_calls CONFIG].
    split; [reflexivity |]. split; [reflexivity |]. split.
    + intros html Hh. change (innerHTML s (modalContentId (CONFIG s)) = Some html) in Hh.
      congruence.
    + intros H. exfalso. apply H. reflexivity.
Qed.

Lemma hidden_clears_content_witness :
  reachable (loaded page_full)
  /\ modalElement (loaded page_full) <> None
  /\ exists s',
       dispatch ev_hidden_bs_modal (loaded page_full) = Normal tt s'
       /\ innerHTML (loaded page_full) "modal-content" = Some "<form></form>"
       /\ innerHTML s' (modalContentId (CONFIG s')) = Some "".
Proof.
  assert (Hr : reachable (loaded page_full)) by apply reach_loaded.
  assert (He : modalElement (loaded page_full) <> None)
    by (vm_compute; discriminate).
  split; [exact Hr |]. split; [exact He |].
  destruct (hidden_clears_content (loaded page_full) Hr He)
    as (s' & Hrun & _ & _ & _ & Hfull).
  exists s'. split; [exact Hrun |]. split; [vm_compute; reflexivity |].
  apply Hfull. vm_compute. discriminate.
Defined.

(** ** Event router *)







(** ** Initialization *)

Lemma initModal_eq (s : state) :
  initModal s =
  match modalElement s, bootstrap_defined s with
  | Some el, true =>
      Normal true
        (with_out (out s ++ logged (CONFIG s) "Modal instance initialized")
           (with_modalInstance (Some (built (CONFIG s) el)) s))
  | _, _ =>
      Normal false
        (with_out
           (out s ++
            [console_error
               "[HTMX Modal] Failed to initialize modal - element or Bootstrap not found"])
           s)
  end.
Proof.
  unfold initModal, typeof_bootstrap_defined, new_bootstrap_Modal, logError, built.
  run_js.
  destruct (modalElement s) as [el |], (bootstrap_defined s) eqn:Hb; run_js;
    rewrite ?Hb; run_js; rewrite ?log_eq; reflexivity.
Qed.

(** [initModal] never throws; it returns true exactly when the script found
    the modal element and Bootstrap is loaded. Then the instance is a fresh
    widget on that element with the configured backdrop and keyboard options,
    not shown; otherwise the instance is left as it was and one error line is
    written. The page is untouched either way. *)
Theorem initModal_succeeds_iff (s : state) :
  exists b s',
    initModal s = Normal b s'
    /\ (b = true <-> modalElement s <> None /\ bootstrap_defined s = true)
    /\ (b = true ->
        exists el, modalElement s = Some el
                   /\ modalInstance s' = Some (built (CONFIG s) el)
                   /\ console_errors (out s') = console_errors (out s))
    /\ (b = false ->
        modalInstance s' = modalInstance s
        /\ out s' =
           (out s ++
            [console_error
               "[HTMX Modal] Failed to initialize modal - element or Bootstrap not found"])%list)
    /\ document_body s' = document_body s.
Proof.
  rewrite initModal_eq.
  destruct (modalElement s) as [el |] eqn:He, (bootstrap_defined s) eqn:Hb;
    do 2 eexists; (split; [reflexivity |]); cbn.
  - split; [split; [intros _; split; [discriminate | reflexivity] | reflexivity] |].
    split; [| split; [discriminate | reflexivity]].
    intros _. exists el. split; [reflexivity |]. split; [reflexivity |].
    unfold console_errors, logged. rewrite filter_app.
    destruct (enableLogging (CONFIG s)); cbn; rewrite app_nil_r; reflexivity.
  - split; [split; [discriminate | intros [_ F]; discriminate] |].
    split; [discriminate |]. repeat split.
  - split; [split; [discriminate | intros [F _]; contradiction] |].
    split; [discriminate |]. repeat split.
  - split; [split; [discriminate | intros [F _]; contradiction] |].
    split; [discriminate |]. repeat split.
Qed.

(** Loading on a page, case by case: body or not, loading or not, Bootstrap
    or not, modal element or not. *)
Ltac load_cases p :=
  let d := fresh "d" in
  let E := fresh "E" in
  destruct p as [[d |] [|] [|] ?];
  [ destruct (dom_get d "global-modal") eqn:E; vm_compute in E |- *; rewrite ?E ..
  | vm_compute | vm_compute | vm_compute | vm_compute ].

(** Loading the script on a page that is past its loading state initializes
    the modal at once, exactly when Bootstrap is loaded and the page has the
    element with id global-modal: the instance is then a widget on that
    element with a static backdrop and the keyboard off, not shown. In every
    other case, a page still loading included, the instance is null after the
    load. *)
Theorem load_initializes (p : page) :
  modalInstance (loaded p) =
  if negb (p_loading p) && p_bootstrap p
  then match innerHTML (boot p) "global-modal" with
       | Some _ =>
           Some {| Modal.el := "global-modal"; Modal.backdrop := "static";
                   Modal.keyboard := false; Modal.isShown := false |}
       | None => None
       end
  else None.
Proof.
  load_cases p; reflexivity.
Qed.

(** The script completes its load exactly when the page has a body. Without
    one it throws at the first listener it puts on the body: only the six
    HTMX listeners are registered, the global API is not exposed and the
    modal is not initialized. With one, the API is exposed. *)
Theorem load_throws_iff_no_body (p : page) :
  throws (main (boot p)) = match p_body p with Some _ => false | None => true end
  /\ HTMXModal_exposed (loaded p) = negb (throws (main (boot p)))
  /\ (throws (main (boot p)) = true ->
      listeners (loaded p) = htmx_listeners
      /\ modalInstance (loaded p) = None
      /\ modalElement (loaded p) = None
      /\ out (loaded p) = []).
Proof.
  load_cases p; repeat split; discriminate.
Qed.



(** A page past its loading state gets no DOMContentLoaded listener, so the
    modal is initialized at most once by the script. *)
Lemma load_registers_DOMContentLoaded (p : page) :
  registered DOMContentLoaded (loaded p) =
  p_loading p && match p_body p with Some _ => true | None => false end.
Proof.
  load_cases p; reflexivity.
Qed.

(** ** More of what no step ever changes *)

Lemma exposed_showModal : keeps_exposed showModal.
Proof. intros s. rewrite showModal_eq. destruct (modalInstance s); reflexivity. Qed.

Lemma exposed_hideModal : keeps_exposed hideModal.
Proof. intros s. rewrite hideModal_eq. destruct (modalInstance s); reflexivity. Qed.

Lemma exposed_clearModalContent : keeps_exposed clearModalContent.
Proof.
  intros s. rewrite clearModalContent_eq.
  destruct (innerHTML s (modalContentId (CONFIG s))); reflexivity.
Qed.

Lemma exposed_showModalLoading : keeps_exposed showModalLoading.
Proof.
  intros s. rewrite showModalLoading_eq.
  destruct (innerHTML s (modalContentId (CONFIG s))); reflexivity.
Qed.

Lemma exposed_showSweetAlert (message : string) (type title : option string) :
  keeps_exposed (showSweetAlert message type title).
Proof.
  intros s. destruct (Swal_defined s) eqn:E.
  - destruct (showSweetAlert_fire_eq message type title s E) as (o & Heq & _).
    rewrite Heq. reflexivity.
  - rewrite showSweetAlert_fallback_eq by exact E. reflexivity.
Qed.

Lemma showConfirmation_eq (message : string)
    (title confirmText cancelText : option string) (s : state) :
  showConfirmation message title confirmText cancelText s =
  if Swal_defined s
  then Normal from_Swal
         (with_out
            (out s ++
             [Swal_fire_confirm
                {| Swal.c_title := JS.or_string title "Are you sure?";
                   Swal.c_text := message;
                   Swal.c_confirmButtonText := JS.or_string confirmText "Yes, proceed";
                   Swal.c_cancelButtonText := JS.or_string cancelText "Cancel" |}])
            s)
  else Normal (rejected "SweetAlert2 not available")
         (with_out (out s ++ [console_error "[HTMX Modal] SweetAlert2 not loaded"]) s).
Proof.
  unfold showConfirmation, typeof_Swal_undefined, Swal_fire_confirm_, logError.
  run_js. destruct (Swal_defined s) eqn:E; run_js; [rewrite E |]; reflexivity.
Qed.

Lemma exposed_bind {A B} (m : M A) (k : A -> M B) :
  keeps_exposed m -> (forall a, keeps_exposed (k a)) -> keeps_exposed (bind m k).
Proof.
  intros Hm Hk s. unfold bind. specialize (Hm s).
  destruct (m s) as [a s1 | e s1]; cbn in *.
  - rewrite (Hk a s1). exact Hm.
  - exact Hm.
Qed.

Lemma exposed_logError (message : string) (e : option string) :
  keeps_exposed (logError message e).
Proof. intros s. unfold logError. destruct e; reflexivity. Qed.

Lemma exposed_handler (e : event) : keeps_exposed (handler e).
Proof.
  destruct e; cbn [handler].
  - intros s. unfold on_afterSwap. run_js.
    destruct (target_id =? modalContentId (CONFIG s));
      [> apply exposed_showModal | reflexivity].
  - intros s. unfold on_beforeRequest. run_js.
    destruct (target_id =? modalContentId (CONFIG s));
      [> apply exposed_showModalLoading | reflexivity].
  - intros s. rewrite on_beforeSwap_eq. reflexivity.
  - unfold on_responseError.
    apply exposed_bind; [apply exposed_logError | intros _].
    apply exposed_bind; [apply exposed_showSweetAlert | intros _].
    apply exposed_hideModal.
  - unfold on_sendError.
    apply exposed_bind; [apply exposed_logError | intros _].
    apply exposed_showSweetAlert.
  - unfold on_timeout.
    apply exposed_bind; [apply exposed_logError | intros _].
    apply exposed_bind; [apply exposed_showSweetAlert | intros _].
    apply exposed_hideModal.
  - apply exposed_showSweetAlert.
  - apply exposed_hideModal.
  - apply exposed_clearModalContent.
  - unfold on_DOMContentLoaded.
    apply exposed_bind.
    + intros s. rewrite initModal_eq.
      destruct (modalElement s), (bootstrap_defined s); reflexivity.
    + intros _ s. rewrite log_eq. reflexivity.
Qed.

Lemma exposed_api {A} (m : M A) : keeps_exposed m -> keeps_exposed (api m).
Proof.
  intros H s. unfold api. destruct (HTMXModal_exposed s) eqn:E; [| exact E].
  specialize (H s). destruct (m s); cbn in *; congruence.
Qed.

Lemma exposed_run (i : input) : keeps_exposed (run i).
Proof.
  destruct i; cbn [run].
  - intros s. unfold dispatch.
    destruct (registered (name_of e) s); [> apply exposed_handler | reflexivity].
  - intros s. unfold fire_timer. run_js.
    destruct (nth_error (timers s) n) as [[d cb] |]; [| reflexivity].
    run_js. destruct cb; cbn [run_callback].
    + apply (exposed_hideModal (with_timers (remove_nth n (timers s)) s)).
    + apply (exposed_showSweetAlert _ _ _ (with_timers (remove_nth n (timers s)) s)).
  - apply exposed_api, exposed_showModal.
  - apply exposed_api, exposed_hideModal.
  - apply exposed_api, exposed_clearModalContent.
  - apply exposed_api, exposed_showSweetAlert.
  - apply exposed_api. intros s. rewrite showConfirmation_eq.
    destruct (Swal_defined s); reflexivity.
  - apply exposed_api. intros s. reflexivity.
  - intros s. reflexivity.
  - intros s. unfold modify, set_shown. cbn.
    destruct (modalInstance s); reflexivity.
Qed.

(** Keeping a null instance null: everything but [initModal]. *)

Lemma null_bind {A B} (m : M A) (k : A -> M B) :
  keeps_null m -> (forall a, keeps_null (k a)) -> keeps_null (bind m k).
Proof.
  intros Hm Hk s H. unfold bind. specialize (Hm s H).
  destruct (m s) as [a s1 | e s1]; cbn in *.
  - apply Hk, Hm.
  - exact Hm.
Qed.

Lemma null_showModal : keeps_null showModal.
Proof. intros s H. rewrite showModal_eq, H. exact H. Qed.

Lemma null_hideModal : keeps_null hideModal.
Proof. intros s H. rewrite hideModal_eq, H. exact H. Qed.

Lemma null_clearModalContent : keeps_null clearModalContent.
Proof.
  intros s H. rewrite clearModalContent_eq.
  destruct (innerHTML s (modalContentId (CONFIG s))); exact H.
Qed.

Lemma null_showModalLoading : keeps_null showModalLoading.
Proof.
  intros s H. rewrite showModalLoading_eq.
  destruct (innerHTML s (modalContentId (CONFIG s))); exact H.
Qed.

Lemma null_showSweetAlert (message : string) (type title : option string) :
  keeps_null (showSweetAlert message type title).
Proof.
  intros s H. destruct (Swal_defined s) eqn:E.
  - destruct (showSweetAlert_fire_eq message type title s E) as (o & Heq & _).
    rewrite Heq. exact H.
  - rewrite showSweetAlert_fallback_eq by exact E. exact H.
Qed.

Lemma null_logError (message : string) (e : option string) :
  keeps_null (logError message e).
Proof. intros s H. unfold logError. destruct e; exact H. Qed.

Lemma null_handler (e : event) :
  name_of e <> DOMContentLoaded -> keeps_null (handler e).
Proof.
  intros Hne. destruct e; cbn [handler]; cbn in Hne.
  - intros s H. unfold on_afterSwap. run_js.
    destruct (target_id =? modalContentId (CONFIG s));
      [> apply null_showModal, H | exact H].
  - intros s H. unfold on_beforeRequest. run_js.
    destruct (target_id =? modalContentId (CONFIG s));
      [> apply null_showModalLoading, H | exact H].
  - intros s H. rewrite on_beforeSwap_eq. exact H.
  - unfold on_responseError.
    apply null_bind; [apply null_logError | intros _].
    apply null_bind; [apply null_showSweetAlert | intros _].
    apply null_hideModal.
  - unfold on_sendError.
    apply null_bind; [apply null_logError | intros _].
    apply null_showSweetAlert.
  - unfold on_timeout.
    apply null_bind; [apply null_logError | intros _].
    apply null_bind; [apply null_showSweetAlert | intros _].
    apply null_hideModal.
  - apply null_showSweetAlert.
  - apply null_hideModal.
  - apply null_clearModalContent.
  - contradiction.
Qed.

Lemma registered_name (n : event_name) (s : state) :
  registered n s = true <-> In n (listeners s).
Proof.
  unfold registered. rewrite existsb_exists. split.
  - intros (x & Hx & E). destruct n, x; try discriminate; exact Hx.
  - intros H. exists n. split; [exact H | destruct n; reflexivity].
Qed.

(** While the global API is not exposed and no DOMContentLoaded listener is
    registered, no step can create an instance. *)
Lemma null_step (i : input) (s : state) :
  HTMXModal_exposed s = false ->
  registered DOMContentLoaded s = false ->
  modalInstance s = None ->
  modalInstance (step i s) = None.
Proof.
  intros Hx Hd Hn. unfold step. destruct i; cbn [run].
  - unfold dispatch. destruct (registered (name_of e) s) eqn:Hr; [| exact Hn].
    apply null_handler; [| exact Hn]. intros E. rewrite E in Hr. congruence.
  - unfold fire_timer. run_js.
    destruct (nth_error (timers s) n) as [[d cb] |]; [| exact Hn].
    run_js. destruct cb; cbn [run_callback].
    + apply (null_hideModal (with_timers (remove_nth n (timers s)) s)), Hn.
    + apply (null_showSweetAlert _ _ _ (with_timers (remove_nth n (timers s)) s)), Hn.
  - unfold api. rewrite Hx. exact Hn.
  - unfold api. rewrite Hx. exact Hn.
  - unfold api. rewrite Hx. exact Hn.
  - unfold api. rewrite Hx. exact Hn.
  - unfold api. rewrite Hx. exact Hn.
  - unfold api. rewrite Hx. exact Hn.
  - exact Hn.
  - unfold modify, set_shown. cbn. rewrite Hn. exact Hn.
Qed.

(** Keeping the instance on the element found at load. *)

Lemma instance_bind {A B} (m : M A) (k : A -> M B) :
  keeps_instance m -> (forall a, keeps_instance (k a)) -> keeps_instance (bind m k).
Proof.
  intros Hm Hk s H. unfold bind. specialize (Hm s H).
  destruct (m s) as [a s1 | e s1]; cbn in *.
  - apply Hk, Hm.
  - exact Hm.
Qed.

Lemma instance_showModal : keeps_instance showModal.
Proof.
  intros s H. rewrite showModal_eq. unfold instance_on_element in *.
  destruct (modalInstance s) as [m |] eqn:E; cbn;
    [| intros m' Hm'; congruence].
  intros m' Hm'. injection Hm' as <-. exact (H m eq_refl).
Qed.

Lemma instance_hideModal : keeps_instance hideModal.
Proof.
  intros s H. rewrite hideModal_eq. unfold instance_on_element in *.
  destruct (modalInstance s) as [m |] eqn:E; cbn;
    [| intros m' Hm'; congruence].
  intros m' Hm'. injection Hm' as <-. exact (H m eq_refl).
Qed.

Lemma instance_clearModalContent : keeps_instance clearModalContent.
Proof.
  intros s H. rewrite clearModalContent_eq.
  destruct (innerHTML s (modalContentId (CONFIG s))); exact H.
Qed.

Lemma instance_showModalLoading : keeps_instance showModalLoading.
Proof.
  intros s H. rewrite showModalLoading_eq.
  destruct (innerHTML s (modalContentId (CONFIG s))); exact H.
Qed.

Lemma instance_showSweetAlert (message : string) (type title : option string) :
  keeps_instance (showSweetAlert message type title).
Proof.
  intros s H. destruct (Swal_defined s) eqn:E.
  - destruct (showSweetAlert_fire_eq message type title s E) as (o & Heq & _).
    rewrite Heq. exact H.
  - rewrite showSweetAlert_fallback_eq by exact E. exact H.
Qed.

Lemma instance_logError (message : string) (e : option string) :
  keeps_instance (logError message e).
Proof. intros s H. unfold logError. destruct e; exact H. Qed.

Lemma instance_initModal : keeps_instance initModal.
Proof.
  intros s H. rewrite initModal_eq. unfold instance_on_element in *.
  destruct (modalElement s) as [el |] eqn:He; [destruct (bootstrap_defined s) |];
    cbn; intros m Hm.
  - injection Hm as <-. cbn. exact He.
  - rewrite He. exact (H m Hm).
  - rewrite He. exact (H m Hm).
Qed.

Lemma instance_handler (e : event) : keeps_instance (handler e).
Proof.
  destruct e; cbn [handler].
  - intros s H. unfold on_afterSwap. run_js.
    destruct (target_id =? modalContentId (CONFIG s));
      [> apply instance_showModal, H | exact H].
  - intros s H. unfold on_beforeRequest. run_js.
    destruct (target_id =? modalContentId (CONFIG s));
      [> apply instance_showModalLoading, H | exact H].
  - intros s H. rewrite on_beforeSwap_eq. exact H.
  - unfold on_responseError.
    apply instance_bind; [apply instance_logError | intros _].
    apply instance_bind; [apply instance_showSweetAlert | intros _].
    apply instance_hideModal.
  - unfold on_sendError.
    apply instance_bind; [apply instance_logError | intros _].
    apply instance_showSweetAlert.
  - unfold on_timeout.
    apply instance_bind; [apply instance_logError | intros _].
    apply instance_bind; [apply instance_showSweetAlert | intros _].
    apply instance_hideModal.
  - apply instance_showSweetAlert.
  - apply instance_hideModal.
  - apply instance_clearModalContent.
  - unfold on_DOMContentLoaded.
    apply instance_bind; [apply instance_initModal | intros _].
    intros s H. rewrite log_eq. exact H.
Qed.

Lemma instance_api {A} (m : M A) : keeps_instance m -> keeps_instance (api m).
Proof.
  intros H s Hs. unfold api. destruct (HTMXModal_exposed s); [| exact Hs].
  specialize (H s Hs). destruct (m s); exact H.
Qed.

Lemma instance_run (i : input) : keeps_instance (run i).
Proof.
  destruct i; cbn [run].
  - intros s H. unfold dispatch.
    destruct (registered (name_of e) s); [> apply instance_handler, H | exact H].
  - intros s H. unfold fire_timer. run_js.
    destruct (nth_error (timers s) n) as [[d cb] |]; [| exact H].
    run_js. destruct cb; cbn [run_callback].
    + apply (instance_hideModal (with_timers (remove_nth n (timers s)) s)), H.
    + apply (instance_showSweetAlert _ _ _ (with_timers (remove_nth n (timers s)) s)), H.
  - apply instance_api, instance_showModal.
  - apply instance_api, instance_hideModal.
  - apply instance_api, instance_clearModalContent.
  - apply instance_api, instance_showSweetAlert.
  - apply instance_api. intros s H. rewrite showConfirmation_eq.
    destruct (Swal_defined s); exact H.
  - apply instance_api. intros s H. exact H.
  - intros s H. exact H.
  - intros s H. unfold modify, set_shown, instance_on_element in *. cbn.
    destruct (modalInstance s) as [m |] eqn:E; cbn;
      [| intros m' Hm'; congruence].
    intros m' Hm'. injection Hm' as <-. exact (H m eq_refl).
Qed.

(** ** What holds in every reachable state *)

(** The listeners in place after the load, in the order of registration. *)
Lemma loaded_listeners (p : page) :
  listeners (loaded p) =
  (htmx_listeners ++
   match p_body p with
   | None => []
   | Some d =>
       [showAlert; closeModal]
       ++ match dom_get d "global-modal" with
          | Some _ => [hidden_bs_modal]
          | None => []
          end
       ++ if p_loading p then [DOMContentLoaded] else []
   end)%list.
Proof.
  load_cases p; reflexivity.
Qed.

Lemma loaded_modalElement (p : page) :
  modalElement (loaded p) = None \/ modalElement (loaded p) = Some "global-modal".
Proof.
  load_cases p; auto.
Qed.

Lemma loaded_instance (p : page) : instance_on_element (loaded p).
Proof.
  unfold instance_on_element. load_cases p; intros m Hm;
    try discriminate; injection Hm as <-; reflexivity.
Qed.

Lemma loaded_unexposed (p : page) :
  HTMXModal_exposed (loaded p) = false ->
  registered DOMContentLoaded (loaded p) = false
  /\ modalInstance (loaded p) = None.
Proof.
  load_cases p; intros H; try discriminate; split; reflexivity.
Qed.

(** Listeners, the element found and the exposure of the API are fixed by the
    load. *)
Lemma reachable_fixed (s : state) :
  reachable s ->
  exists p,
    listeners s = listeners (loaded p)
    /\ modalElement s = modalElement (loaded p)
    /\ HTMXModal_exposed s = HTMXModal_exposed (loaded p).
Proof.
  induction 1 as [p | i s Hs (p & Hl & He & Hx)].
  - exists p. repeat split.
  - exists p. unfold step.
    destruct (keeps_run i s) as [He' Hl']. rewrite He', Hl', (exposed_run i s).
    repeat split; assumption.
Qed.

(** In every reachable state, even after a load that threw, an HTMX event
    (after-swap, before-request, before-swap, response error, send error,
    timeout) reaches the script's handler for it. *)
Theorem htmx_events_always_handled (s : state) (e : event) :
  reachable s ->
  In (name_of e) htmx_listeners ->
  dispatch e s = handler e s.
Proof.
  intros Hr Hin. destruct (reachable_fixed s Hr) as (p & Hl & _ & _).
  unfold dispatch.
  assert (Hreg : registered (name_of e) s = true).
  { apply registered_name. rewrite Hl, loaded_listeners.
    apply in_or_app. left. exact Hin. }
  rewrite Hreg. reflexivity.
Qed.

Lemma htmx_events_always_handled_witness :
  reachable (loaded page_no_body)
  /\ In (name_of (ev_sendError None)) htmx_listeners
  /\ throws (main (boot page_no_body)) = true
  /\ dispatch (ev_sendError None) (loaded page_no_body)
     = handler (ev_sendError None) (loaded page_no_body).
Proof.
  assert (Hr : reachable (loaded page_no_body)) by apply reach_loaded.
  assert (Hin : In (name_of (ev_sendError None)) htmx_listeners)
    by (cbn; tauto).
  split; [exact Hr |]. split; [exact Hin |]. split; [vm_compute; reflexivity |].
  exact (htmx_events_always_handled (loaded page_no_body) (ev_sendError None) Hr Hin).
Defined.

(** In every reachable state no listener is registered twice: an event runs
    its handler at most once. *)
Theorem listeners_never_duplicated (s : state) :
  reachable s -> NoDup (listeners s).
Proof.
  intros Hr. destruct (reachable_fixed s Hr) as (p & Hl & _ & _).
  rewrite Hl, loaded_listeners. unfold htmx_listeners.
  destruct (p_body p) as [d |];
    [destruct (dom_get d "global-modal"), (p_loading p) |];
    cbn; repeat constructor; cbn; intuition discriminate.
Qed.

Lemma listeners_never_duplicated_witness :
  reachable (step (in_event ev_DOMContentLoaded) (loaded page_loading))
  /\ NoDup (listeners (step (in_event ev_DOMContentLoaded) (loaded page_loading))).
Proof.
  assert (Hr : reachable (step (in_event ev_DOMContentLoaded) (loaded page_loading)))
    by (apply reach_step, reach_loaded).
  split; [exact Hr |].
  exact (listeners_never_duplicated _ Hr).
Defined.

(** When the load threw (the global API is not exposed), the modal is never
    initialized: in every state reachable afterwards the instance is null,
    whatever the page loads later. *)
Theorem never_initialized_after_failed_load (s : state) :
  reachable s ->
  HTMXModal_exposed s = false ->
  modalInstance s = None /\ registered DOMContentLoaded s = false.
Proof.
  induction 1 as [p | i s Hs IH]; intros Hx.
  - destruct (loaded_unexposed p Hx). split; assumption.
  - unfold step in Hx. rewrite (exposed_run i s) in Hx.
    destruct (IH Hx) as [Hn Hd]. split.
    + apply null_step; assumption.
    + unfold step, registered. destruct (keeps_run i s) as [_ Hl].
      rewrite Hl. exact Hd.
Qed.

Lemma never_initialized_after_failed_load_witness :
  reachable (step (in_event ev_DOMContentLoaded)
               (step (in_page page_full) (loaded page_no_body)))
  /\ HTMXModal_exposed (step (in_event ev_DOMContentLoaded)
                          (step (in_page page_full) (loaded page_no_body))) = false
  /\ modalInstance (step (in_event ev_DOMContentLoaded)
                      (step (in_page page_full) (loaded page_no_body))) = None.
Proof.
  assert (Hr : reachable (step (in_event ev_DOMContentLoaded)
                            (step (in_page page_full) (loaded page_no_body))))
    by (do 2 apply reach_step; apply reach_loaded).
  assert (Hx : HTMXModal_exposed (step (in_event ev_DOMContentLoaded)
                                    (step (in_page page_full) (loaded page_no_body)))
               = false) by (vm_compute; reflexivity).
  split; [exact Hr |]. split; [exact Hx |].
  exact (proj1 (never_initialized_after_failed_load _ Hr Hx)).
Defined.

(** In every reachable state there is at most the one modal instance, and it
    sits on the element with id global-modal that the script found when it
    was loaded. *)
Theorem instance_on_global_modal (s : state) (m : Modal.t) :
  reachable s ->
  modalInstance s = Some m ->
  Modal.el m = "global-modal" /\ modalElement s = Some "global-modal".
Proof.
  intros Hr Hm.
  assert (Hi : instance_on_element s).
  { clear Hm. induction Hr as [p | i s Hs IH].
    - apply loaded_instance.
    - apply instance_run, IH. }
  destruct (reachable_fixed s Hr) as (p & _ & He & _).
  specialize (Hi m Hm). rewrite He in Hi.
  destruct (loaded_modalElement p) as [E | E]; rewrite E in Hi.
  - discriminate.
  - injection Hi as Hi. split; [symmetry; exact Hi |].
    rewrite He. exact E.
Qed.

Lemma instance_on_global_modal_witness :
  reachable (step in_show (loaded page_full))
  /\ modalInstance (step in_show (loaded page_full)) =
     Some {| Modal.el := "global-modal"; Modal.backdrop := "static";
             Modal.keyboard := false; Modal.isShown := true |}
  /\ modalElement (step in_show (loaded page_full)) = Some "global-modal".
Proof.
  assert (Hr : reachable (step in_show (loaded page_full)))
    by (apply reach_step, reach_loaded).
  assert (Hm : modalInstance (step in_show (loaded page_full)) =
               Some {| Modal.el := "global-modal"; Modal.backdrop := "static";
                       Modal.keyboard := false; Modal.isShown := true |})
    by (vm_compute; reflexivity).
  split; [exact Hr |]. split; [exact Hm |].
  exact (proj2 (instance_on_global_modal _ _ Hr Hm)).
Defined.

(** ** Exceptions *)

Lemma safe_bind {A B} (m : M A) (k : A -> M B) :
  safe m -> (forall a, safe (k a)) -> safe (bind m k).
Proof.
  intros Hm Hk s. unfold bind. specialize (Hm s).
  destruct (m s) as [a s1 | e s1]; cbn in *; [apply Hk | discriminate].
Qed.

Lemma safe_logError (message : string) (e : option string) :
  safe (logError message e).
Proof. intros s. unfold logError. destruct e; reflexivity. Qed.

Lemma safe_showModal : safe showModal.
Proof. intros s. rewrite showModal_eq. reflexivity. Qed.

Lemma safe_hideModal : safe hideModal.
Proof. intros s. rewrite hideModal_eq. reflexivity. Qed.

Lemma safe_clearModalContent : safe clearModalContent.
Proof. intros s. rewrite clearModalContent_eq. reflexivity. Qed.

Lemma safe_showModalLoading : safe showModalLoading.
Proof. intros s. rewrite showModalLoading_eq. reflexivity. Qed.

Lemma safe_showSweetAlert (message : string) (type title : option string) :
  safe (showSweetAlert message type title).
Proof.
  intros s. destruct (Swal_defined s) eqn:E.
  - destruct (showSweetAlert_fire_eq message type title s E) as (o & Heq & _).
    rewrite Heq. reflexivity.
  - rewrite showSweetAlert_fallback_eq by exact E. reflexivity.
Qed.

Lemma safe_initModal : safe initModal.
Proof.
  intros s. rewrite initModal_eq.
  destruct (modalElement s), (bootstrap_defined s); reflexivity.
Qed.

Lemma safe_handler (e : event) : safe (handler e).
Proof.
  destruct e; cbn [handler].
  - intros s. unfold on_afterSwap. run_js.
    destruct (target_id =? modalContentId (CONFIG s));
      [> apply safe_showModal | reflexivity].
  - intros s. unfold on_beforeRequest. run_js.
    destruct (target_id =? modalContentId (CONFIG s));
      [> apply safe_showModalLoading | reflexivity].
  - intros s. rewrite on_beforeSwap_eq. reflexivity.
  - unfold on_responseError.
    apply safe_bind; [apply safe_logError | intros _].
    apply safe_bind; [apply safe_showSweetAlert | intros _].
    apply safe_hideModal.
  - unfold on_sendError.
    apply safe_bind; [apply safe_logError | intros _].
    apply safe_showSweetAlert.
  - unfold on_timeout.
    apply safe_bind; [apply safe_logError | intros _].
    apply safe_bind; [apply safe_showSweetAlert | intros _].
    apply safe_hideModal.
  - apply safe_showSweetAlert.
  - apply safe_hideModal.
  - apply safe_clearModalContent.
  - unfold on_DOMContentLoaded.
    apply safe_bind; [apply safe_initModal | intros _].
    intros s. rewrite log_eq. reflexivity.
Qed.

Lemma safe_api {A} (m : M A) : safe m -> safe (api m).
Proof.
  intros H s. unfold api. destruct (HTMXModal_exposed s); [| reflexivity].
  specialize (H s). destruct (m s); [reflexivity | discriminate].
Qed.

(** No listener of the script throws on an event whose detail has the shape
    the listener reads (the target or response HTMX supplies, a detail object
    for the showAlert signal), in any state: the guards on the modal
    instance, the content element, Bootstrap and SweetAlert2 come before
    every use. The same holds for a timer that fires and for every call
    through the global API with arguments of the documented types. A
    showAlert event dispatched without a detail is the exception: its
    listener throws at its first statement, before it has done anything. *)
Theorem listeners_throw_only_without_detail (s : state) :
  (forall e, throws (handler e s) = false)
  /\ (forall i, throws (run i s) = false)
  /\ (forall d, showAlert_listener (Some d) s = handler (ev_showAlert d) s)
  /\ (exists e, showAlert_listener None s = Throw e s).
Proof.
  split; [| split; [| split]].
  - intros e. apply safe_handler.
  - intros i. destruct i; cbn [run].
    + unfold dispatch. destruct (registered (name_of e) s);
        [apply safe_handler | reflexivity].
    + unfold fire_timer. run_js.
      destruct (nth_error (timers s) n) as [[d cb] |]; [| reflexivity].
      run_js. destruct cb; cbn [run_callback].
      * apply (safe_hideModal (with_timers (remove_nth n (timers s)) s)).
      * apply (safe_showSweetAlert _ _ _ (with_timers (remove_nth n (timers s)) s)).
    + apply safe_api, safe_showModal.
    + apply safe_api, safe_hideModal.
    + apply safe_api, safe_clearModalContent.
    + apply safe_api, safe_showSweetAlert.
    + apply safe_api. intros t. rewrite showConfirmation_eq.
      destruct (Swal_defined t); reflexivity.
    + apply safe_api. intros t. reflexivity.
    + reflexivity.
    + reflexivity.
  - intros d. reflexivity.
  - eexists. reflexivity.
Qed.

(** ** Showing and hiding *)

Lemma shows_app (l1 l2 : list effect) : shows (l1 ++ l2) = (shows l1 + shows l2)%nat.
Proof. unfold shows. rewrite filter_app, length_app. reflexivity. Qed.

Lemma writes_app (l1 l2 : list effect) : writes (l1 ++ l2) = (writes l1 ++ writes l2)%list.
Proof. unfold writes. apply flat_map_app. Qed.

Lemma console_errors_app (l1 l2 : list effect) :
  console_errors (l1 ++ l2) = (console_errors l1 ++ console_errors l2)%list.
Proof. unfold console_errors. apply filter_app. Qed.

(** With an instance in place, [showModal] calls its show() exactly once
    and [hideModal] calls its hide() exactly once; neither makes the other
    call, writes an error line, assigns an innerHTML or sets a timer. The
    closeModal signal and a fired hide timer do exactly what [hideModal]
    does. *)
Theorem show_hide_call_instance_once (s : state) (m : Modal.t) :
  modalInstance s = Some m ->
  (exists s',
     showModal s = Normal tt s'
     /\ shows (out s') = S (shows (out s))
     /\ hides (out s') = hides (out s)
     /\ console_errors (out s') = console_errors (out s)
     /\ writes (out s') = writes (out s)
     /\ timers s' = timers s)
  /\ (exists s',
        hideModal s = Normal tt s'
        /\ hides (out s') = S (hides (out s))
        /\ shows (out s') = shows (out s)
        /\ console_errors (out s') = console_errors (out s)
        /\ writes (out s') = writes (out s)
        /\ timers s' = timers s)
  /\ handler ev_closeModal s = hideModal s
  /\ run_callback cb_hideModal s = hideModal s.
Proof.
  intros H.
  split; [| split; [| split; reflexivity]];
    rewrite ?showModal_eq, ?hideModal_eq, H;
    eexists; (split; [reflexivity |]);
    cbn [out with_out timers with_modalInstance with_calls];
    rewrite shows_app, hides_app, console_errors_app, writes_app;
    unfold logged; destruct (enableLogging (CONFIG s)); cbn;
    rewrite ?app_nil_r; repeat split; lia.
Qed.

Lemma show_hide_call_instance_once_witness :
  modalInstance (loaded page_full) = Some (built CONFIG0 "global-modal")
  /\ exists s',
       hideModal (loaded page_full) = Normal tt s'
       /\ hides (out s') = S (hides (out (loaded page_full)))
       /\ shows (out s') = shows (out (loaded page_full)).
Proof.
  assert (H : modalInstance (loaded page_full) = Some (built CONFIG0 "global-modal"))
    by (vm_compute; reflexivity).
  split; [exact H |].
  destruct (show_hide_call_instance_once (loaded page_full) _ H)
    as (_ & (s' & Hrun & Hh & Hs & _) & _).
  exists s'. split; [exact Hrun |]. split; [exact Hh | exact Hs].
Defined.

(** ** Requests for the modal's content *)

(** An after-swap or before-request event whose target is not the content
    element is ignored altogether: the state is exactly what it was. *)
Theorem other_targets_ignored (target : string) (s : state) :
  target <> modalContentId (CONFIG s) ->
  on_afterSwap target s = Normal tt s
  /\ on_beforeRequest target s = Normal tt s.
Proof.
  intros H. unfold on_afterSwap, on_beforeRequest. run_js.
  destruct (String.eqb_spec target (modalContentId (CONFIG s))) as [E | _];
    [contradiction | split; reflexivity].
Qed.

Lemma other_targets_ignored_witness :
  "sidebar" <> modalContentId (CONFIG (loaded page_full))
  /\ on_afterSwap "sidebar" (loaded page_full) = Normal tt (loaded page_full)
  /\ on_beforeRequest "sidebar" (loaded page_full) = Normal tt (loaded page_full).
Proof.
  assert (H : "sidebar" <> modalContentId (CONFIG (loaded page_full)))
    by (vm_compute; discriminate).
  split; [exact H |].
  exact (other_targets_ignored "sidebar" (loaded page_full) H).
Defined.



(** ** More on notifications *)

Lemma kind_name_not_empty (k : kind) : (kind_name k =? "") = false.
Proof. destruct k; reflexivity. Qed.

Lemma kind_used_name (k : kind) : kind_used (Some (kind_name k)) = kind_name k.
Proof. destruct k; reflexivity. Qed.

Lemma kind_success_iff (k : kind) :
  (kind_name k =? "success") = match k with success => true | _ => false end.
Proof. destruct k; reflexivity. Qed.

(** The one alert [showSweetAlert] fires for one of the five kinds. *)
Lemma showSweetAlert_kind (message : string) (type title : option string)
    (k : kind) (s : state) :
  Swal_defined s = true ->
  kind_used type = kind_name k ->
  exists o,
    showSweetAlert message type title s =
    Normal tt
      (with_out
         (out s ++ Swal_fire o
                :: logged (CONFIG s)
                     ("SweetAlert shown: " ++ kind_name k ++ " - " ++ message))
         (with_calls (calls s ++ [call_showSweetAlert message type title]) s))
    /\ Swal.icon o = JS.VString (kind_icon k)
    /\ Swal.title o = title_or title (kind_title k)
    /\ Swal.confirmButtonColor o = JS.VString (kind_color k)
    /\ Swal.text o = message
    /\ Swal.timer o = match k with
                      | success => Some (successAutoClose (CONFIG s))
                      | _ => None
                      end
    /\ Swal.timerProgressBar o = match k with success => true | _ => false end.
Proof.
  intros H Hk.
  destruct (showSweetAlert_fire_eq message type title s H)
    as (o & Heq & Hicon & Htitle & Hcolor & Htext & Htimer & Hbar).
  exists o. rewrite Hk in *. split; [exact Heq |].
  rewrite Hicon, Htitle, Hcolor, Htimer, Hbar.
  rewrite iconMap_kind, defaultTitles_kind, buttonColors_kind.
  cbn [JS.or]. rewrite kind_icon_truthy, kind_color_truthy.
  rewrite or_title by apply kind_title_truthy.
  rewrite kind_success_iff.
  repeat split; try assumption; destruct k; reflexivity.
Qed.

Lemma alerts_fired (l : list effect) (o : Swal.options) (c : config) (m : string) :
  alerts (l ++ Swal_fire o :: logged c m) = (alerts l ++ [o])%list.
Proof. rewrite alerts_app. cbn. rewrite alerts_logged. reflexivity. Qed.

Lemma hides_fired (l : list effect) (o : Swal.options) (c : config) (m : string) :
  hides (l ++ Swal_fire o :: logged c m) = hides l.
Proof.
  change (Swal_fire o :: logged c m) with ([Swal_fire o] ++ logged c m)%list.
  rewrite !hides_app, hides_logged. cbn. lia.
Qed.

(** The shorthand functions of the global API (showSuccess, showError,
    showWarning, showInfo) each present one alert with the icon, button colour
    and, unless the caller gives a non-empty title, the default title of
    their kind; only showSuccess sets the auto-dismiss timer. *)
Theorem shorthand_alerts (message : string) (title : option string) (s : state)
    (k : kind) (f : string -> option string -> M unit) :
  Swal_defined s = true ->
  In (k, f) [(success, showSuccess); (error, showError);
             (warning, showWarning); (info, showInfo)] ->
  exists o,
    alerts (out (final (f message title s))) = (alerts (out s) ++ [o])%list
    /\ Swal.icon o = JS.VString (kind_icon k)
    /\ Swal.title o = title_or title (kind_title k)
    /\ Swal.confirmButtonColor o = JS.VString (kind_color k)
    /\ Swal.text o = message
    /\ Swal.timer o = match k with
                      | success => Some (successAutoClose (CONFIG s))
                      | _ => None
                      end
    /\ hides (out (final (f message title s))) = hides (out s).
Proof.
  intros H Hin.
  assert (Hf : f message title s = showSweetAlert message (Some (kind_name k)) title s).
  { cbn in Hin. destruct Hin as [E | [E | [E | [E | []]]]];
      injection E as <- <-; reflexivity. }
  rewrite Hf.
  destruct (showSweetAlert_kind message (Some (kind_name k)) title k s H
              (kind_used_name k))
    as (o & Heq & Hicon & Htitle & Hcolor & Htext & Htimer & _).
  exists o. rewrite Heq. cbn [final out with_out with_calls].
  rewrite alerts_fired, hides_fired.
  repeat split; assumption.
Qed.

Lemma shorthand_alerts_witness :
  Swal_defined (loaded page_full) = true
  /\ exists o,
       alerts (out (final (showError "Disk full" None (loaded page_full))))
         = (alerts (out (loaded page_full)) ++ [o])%list
       /\ Swal.icon o = JS.VString (kind_icon error)
       /\ Swal.title o = title_or None (kind_title error)
       /\ Swal.timer o = None.
Proof.
  assert (H : Swal_defined (loaded page_full) = true) by (vm_compute; reflexivity).
  split; [exact H |].
  destruct (shorthand_alerts "Disk full" None (loaded page_full) error showError H
              (or_intror (or_introl eq_refl)))
    as (o & Ho & Hi & Ht & _ & _ & Htimer & _).
  exists o. split; [exact Ho |]. split; [exact Hi |]. split; [exact Ht | exact Htimer].
Defined.


Lemma or_string_twice (a : option string) (b : string) :
  (b =? "") = false ->
  JS.or_string (Some (JS.or_string a b)) b = JS.or_string a b.
Proof.
  intros Hb. unfold JS.or_string.
  destruct a as [x |]; [destruct (x =? "") eqn:E |]; rewrite ?Hb, ?E; reflexivity.
Qed.

Lemma title_or_null (title : option string) (d : string) :
  title_or (or_null title) d = title_or title d.
Proof.
  unfold title_or, or_null, JS.or_string.
  destruct title as [t |]; [| reflexivity].
  destruct (t =? "") eqn:E; [reflexivity | rewrite E; reflexivity].
Qed.

(** The showAlert signal with SweetAlert2 loaded. When the event carries a
    detail object, one alert is presented whose text is the detail's message,
    or "Action completed" when that is absent or empty; its kind is the
    detail's type, or success when that is absent or empty, and it has the
    auto-dismiss timer exactly when that kind is success; when the kind is
    one of the five, the icon is that kind's and the title is the detail's
    non-empty title or else the kind's default. The modal is not hidden.
    When the event carries no detail, the listener throws and nothing is
    presented. *)
Theorem showAlert_signal_defaults (detail : option alert_detail) (s : state) :
  Swal_defined s = true ->
  match detail with
  | Some d =>
      exists o,
        alerts (out (final (showAlert_listener (Some d) s)))
          = (alerts (out s) ++ [o])%list
        /\ Swal.text o = JS.or_string (d_message d) "Action completed"
        /\ Swal.timer o =
           (if JS.or_string (d_type d) "success" =? "success"
            then Some (successAutoClose (CONFIG s)) else None)
        /\ (forall k, JS.or_string (d_type d) "success" = kind_name k ->
              Swal.icon o = JS.VString (kind_icon k)
              /\ Swal.title o = title_or (d_title d) (kind_title k))
        /\ hide_calls (calls (final (showAlert_listener (Some d) s)))
           = hide_calls (calls s)
  | None =>
      exists e, showAlert_listener None s = Throw e s
  end.
Proof.
  intros H. destruct detail as [d |]; [| eexists; reflexivity].
  cbn [showAlert_listener]. unfold on_showAlert.
  assert (Hu : kind_used (Some (JS.or_string (d_type d) "success"))
               = JS.or_string (d_type d) "success").
  { unfold kind_used. apply or_string_twice. reflexivity. }
  destruct (showSweetAlert_fire_eq
              (JS.or_string (d_message d) "Action completed")
              (Some (JS.or_string (d_type d) "success"))
              (or_null (d_title d)) s H)
    as (o & Heq & Hicon & Htitle & _ & Htext & Htimer & _).
  rewrite Hu in Hicon, Htitle, Htimer.
  exists o. rewrite Heq. cbn [final out calls with_out with_calls].
  rewrite alerts_fired, hide_calls_app. cbn.
  split; [reflexivity |]. split; [exact Htext |]. split; [exact Htimer |].
  split; [| lia].
  intros k Hk. rewrite Hicon, Htitle, Hk.
  rewrite iconMap_kind, defaultTitles_kind.
  cbn [JS.or]. rewrite kind_icon_truthy.
  rewrite or_title by apply kind_title_truthy.
  rewrite title_or_null. split; reflexivity.
Qed.

Lemma showAlert_signal_defaults_witness :
  Swal_defined (loaded page_full) = true
  /\ exists o,
       alerts (out (final (showAlert_listener
                             (Some {| d_message := None; d_type := Some "";
                                      d_title := Some "" |})
                             (loaded page_full))))
         = (alerts (out (loaded page_full)) ++ [o])%list
       /\ Swal.text o = "Action completed"
       /\ Swal.icon o = JS.VString "success"
       /\ Swal.title o = JS.VString "Success!".
Proof.
  assert (H : Swal_defined (loaded page_full) = true) by (vm_compute; reflexivity).
  split; [exact H |].
  destruct (showAlert_signal_defaults
              (Some {| d_message := None; d_type := Some ""; d_title := Some "" |})
              (loaded page_full) H)
    as (o & Ho & Htext & _ & Hk & _).
  exists o. split; [exact Ho |]. split; [exact Htext |].
  exact (Hk success eq_refl).
Defined.

(** [showConfirmation] never throws. Without SweetAlert2 it shows nothing,
    writes one error line and returns a promise already rejected with
    "SweetAlert2 not available"; with it, it opens one dialog whose title,
    confirm label and cancel label are the caller's non-empty strings or else
    "Are you sure?", "Yes, proceed" and "Cancel", and writes nothing to the
    console. It never touches the modal or the page. *)
Theorem showConfirmation_rejects_or_asks (message : string)
    (title confirmText cancelText : option string) (s : state) :
  exists r s',
    showConfirmation message title confirmText cancelText s = Normal r s'
    /\ modalInstance s' = modalInstance s
    /\ document_body s' = document_body s
    /\ (if Swal_defined s
        then r = from_Swal
             /\ exists o,
                  out s' = (out s ++ [Swal_fire_confirm o])%list
                  /\ Swal.c_text o = message
                  /\ Swal.c_title o = JS.or_string title "Are you sure?"
                  /\ Swal.c_confirmButtonText o = JS.or_string confirmText "Yes, proceed"
                  /\ Swal.c_cancelButtonText o = JS.or_string cancelText "Cancel"
        else r = rejected "SweetAlert2 not available"
             /\ out s' = (out s ++ [console_error "[HTMX Modal] SweetAlert2 not loaded"])%list).
Proof.
  rewrite showConfirmation_eq.
  destruct (Swal_defined s); do 2 eexists; (split; [reflexivity |]); cbn;
    repeat split.
  eexists. repeat split.
Qed.

(** ** More on the pre-swap handler *)

(** A response that carries no instruction (no alert message, or an empty
    one, and no HX-Close-Modal equal to "true") leaves the state exactly as
    it was, whatever its HX-Alert-Type and HX-Alert-Title headers say. *)
Theorem beforeSwap_without_instruction (xhr : XMLHttpRequest) (s : state) :
  getResponseHeader xhr "HX-Alert-Message" = None
  \/ getResponseHeader xhr "HX-Alert-Message" = Some "" ->
  getResponseHeader xhr "HX-Close-Modal" <> Some "true" ->
  on_beforeSwap xhr s = Normal tt s.
Proof.
  intros Hm Hc. rewrite on_beforeSwap_eq. unfold scheduled.
  assert (E1 : match getResponseHeader xhr "HX-Alert-Message" with
               | Some m =>
                   if JS.truthy (JS.VString m)
                   then [(200%Z, cb_alert m (getResponseHeader xhr "HX-Alert-Type")
                                          (getResponseHeader xhr "HX-Alert-Title"))]
                   else []
               | None => []
               end = []) by (destruct Hm as [-> | ->]; reflexivity).
  rewrite E1.
  destruct (getResponseHeader xhr "HX-Close-Modal") as [v |]; cbn.
  - destruct (String.eqb_spec v "true") as [-> | _]; [contradiction |].
    rewrite app_nil_r, with_timers_same. reflexivity.
  - rewrite app_nil_r, with_timers_same. reflexivity.
Qed.

Lemma beforeSwap_without_instruction_witness :
  getResponseHeader xhr_only_kind "HX-Alert-Message" = None
  /\ getResponseHeader xhr_only_kind "HX-Close-Modal" <> Some "true"
  /\ on_beforeSwap xhr_only_kind (loaded page_full) = Normal tt (loaded page_full).
Proof.
  assert (H1 : getResponseHeader xhr_only_kind "HX-Alert-Message" = None
               \/ getResponseHeader xhr_only_kind "HX-Alert-Message" = Some "")
    by (left; reflexivity).
  assert (H2 : getResponseHeader xhr_only_kind "HX-Close-Modal" <> Some "true")
    by (vm_compute; discriminate).
  split; [reflexivity |]. split; [exact H2 |].
  exact (beforeSwap_without_instruction xhr_only_kind (loaded page_full) H1 H2).
Defined.

(** A response with a non-empty alert message: the alert timer of 200 ms
    comes first among the timers added, the hide timer of 100 ms follows
    exactly when HX-Close-Modal is "true", and the alert, once its timer
    fires with SweetAlert2 loaded, is of the kind named by HX-Alert-Type
    (success when that header is absent or empty), with the HX-Alert-Title
    header, when not empty, as its title. *)
Theorem beforeSwap_alert_kind_from_header (xhr : XMLHttpRequest) (m : string)
    (k : kind) (s : state) :
  getResponseHeader xhr "HX-Alert-Message" = Some m ->
  m <> "" ->
  JS.or_string (getResponseHeader xhr "HX-Alert-Type") "success" = kind_name k ->
  exists cb,
    on_beforeSwap xhr s
      = Normal tt
          (with_timers
             (timers s ++
              (200%Z, cb) ::
              match getResponseHeader xhr "HX-Close-Modal" with
              | Some v => if v =? "true" then [(100%Z, cb_hideModal)] else []
              | None => []
              end) s)
    /\ forall t, Swal_defined t = true ->
       exists o,
         alerts (out (final (run_callback cb t))) = (alerts (out t) ++ [o])%list
         /\ Swal.text o = m
         /\ Swal.icon o = JS.VString (kind_icon k)
         /\ Swal.title o
            = title_or (getResponseHeader xhr "HX-Alert-Title") (kind_title k)
         /\ Swal.timer o = match k with
                           | success => Some (successAutoClose (CONFIG t))
                           | _ => None
                           end.
Proof.
  intros Hm Hne Hk.
  exists (cb_alert m (getResponseHeader xhr "HX-Alert-Type")
                   (getResponseHeader xhr "HX-Alert-Title")).
  split.
  - rewrite on_beforeSwap_eq. unfold scheduled. rewrite Hm.
    unfold JS.truthy. destruct (String.eqb_spec m "") as [E | _]; [contradiction |].
    reflexivity.
  - intros t Ht. cbn [run_callback].
    assert (Hu : kind_used (Some (JS.or_string (getResponseHeader xhr "HX-Alert-Type")
                                               "success")) = kind_name k).
    { unfold kind_used. rewrite or_string_twice by reflexivity. exact Hk. }
    destruct (showSweetAlert_kind m _ (getResponseHeader xhr "HX-Alert-Title") k t Ht Hu)
      as (o & Heq & Hicon & Htitle & _ & Htext & Htimer & _).
    exists o. rewrite Heq. cbn [final out with_out with_calls].
    rewrite alerts_fired. repeat split; assumption.
Qed.

Lemma beforeSwap_alert_kind_from_header_witness :
  getResponseHeader xhr_error_close "HX-Alert-Message" = Some "Not allowed"
  /\ "Not allowed" <> ""
  /\ exists cb,
       on_beforeSwap xhr_error_close (loaded page_full)
         = Normal tt
             (with_timers
                (timers (loaded page_full) ++
                 (200%Z, cb) ::
                 match getResponseHeader xhr_error_close "HX-Close-Modal" with
                 | Some v => if v =? "true" then [(100%Z, cb_hideModal)] else []
                 | None => []
                 end) (loaded page_full)).
Proof.
  assert (Hne : "Not allowed" <> "") by discriminate.
  split; [reflexivity |]. split; [exact Hne |].
  destruct (beforeSwap_alert_kind_from_header xhr_error_close "Not allowed" error
              (loaded page_full) eq_refl Hne eq_refl) as (cb & Hrun & _).
  exists cb. exact Hrun.
Defined.

(** ** The page *)

Lemma writes_logged (c : config) (m : string) : writes (logged c m) = [].
Proof. unfold logged. destruct (enableLogging c); reflexivity. Qed.

Lemma nowrite_bind {A B} (m : M A) (k : A -> M B) :
  writes_nothing m -> (forall a, writes_nothing (k a)) -> writes_nothing (bind m k).
Proof.
  intros Hm Hk s. unfold bind. specialize (Hm s).
  destruct (m s) as [a s1 | e s1]; cbn in *.
  - rewrite (Hk a s1). exact Hm.
  - exact Hm.
Qed.

Lemma nowrite_logError (message : string) (e : option string) :
  writes_nothing (logError message e).
Proof.
  intros s. unfold logError. destruct e; cbn; rewrite writes_app; cbn;
    apply app_nil_r.
Qed.

Lemma nowrite_log (message : string) : writes_nothing (log message None).
Proof.
  intros s. rewrite log_eq. cbn. rewrite writes_app, writes_logged.
  apply app_nil_r.
Qed.

Lemma nowrite_showModal : writes_nothing showModal.
Proof.
  intros s. rewrite showModal_eq. destruct (modalInstance s); cbn;
    rewrite writes_app; [| cbn; apply app_nil_r].
  change (Modal_show :: logged (CONFIG s) "Modal shown")
    with ([Modal_show] ++ logged (CONFIG s) "Modal shown")%list.
  rewrite writes_app, writes_logged. cbn. apply app_nil_r.
Qed.

Lemma nowrite_hideModal : writes_nothing hideModal.
Proof.
  intros s. rewrite hideModal_eq. destruct (modalInstance s); cbn;
    [| reflexivity].
  change (Modal_hide :: logged (CONFIG s) "Modal hidden")
    with ([Modal_hide] ++ logged (CONFIG s) "Modal hidden")%list.
  rewrite !writes_app, writes_logged. cbn. apply app_nil_r.
Qed.

Lemma nowrite_showSweetAlert (message : string) (type title : option string) :
  writes_nothing (showSweetAlert message type title).
Proof.
  intros s. destruct (Swal_defined s) eqn:E.
  - destruct (showSweetAlert_fire_eq message type title s E) as (o & Heq & _).
    rewrite Heq. cbn.
    match goal with
    | |- context [Swal_fire o :: ?l] =>
        change (Swal_fire o :: l) with ([Swal_fire o] ++ l)%list
    end.
    rewrite !writes_app, writes_logged. cbn. apply app_nil_r.
  - rewrite showSweetAlert_fallback_eq by exact E. cbn.
    rewrite writes_app. cbn. apply app_nil_r.
Qed.

Lemma nowrite_initModal : writes_nothing initModal.
Proof.
  intros s. rewrite initModal_eq.
  destruct (modalElement s), (bootstrap_defined s); cbn;
    rewrite writes_app, ?writes_logged; cbn; apply app_nil_r.
Qed.

(** What the two content operations assign. *)
Lemma clearModalContent_writes (s : state) :
  writes (out (final (clearModalContent s))) =
  (writes (out s) ++
   match innerHTML s (modalContentId (CONFIG s)) with
   | Some _ => [(modalContentId (CONFIG s), "")]
   | None => []
   end)%list.
Proof.
  rewrite clearModalContent_eq.
  destruct (innerHTML s (modalContentId (CONFIG s))); cbn;
    [| rewrite app_nil_r; reflexivity].
  match goal with
  | |- context [innerHTML_set ?i ?h :: ?l] =>
      change (innerHTML_set i h :: l) with ([innerHTML_set i h] ++ l)%list
  end.
  rewrite !writes_app, writes_logged. cbn. reflexivity.
Qed.

Lemma showModalLoading_writes (s : state) :
  writes (out (final (showModalLoading s))) =
  (writes (out s) ++
   match innerHTML s (modalContentId (CONFIG s)) with
   | Some _ => [(modalContentId (CONFIG s), loading_html)]
   | None => []
   end)%list.
Proof.
  rewrite showModalLoading_eq.
  destruct (innerHTML s (modalContentId (CONFIG s))); cbn;
    [| rewrite app_nil_r; reflexivity].
  rewrite writes_app. reflexivity.
Qed.

Lemma nowrite_handler (e : event) :
  name_of e <> htmx_beforeRequest -> name_of e <> hidden_bs_modal ->
  writes_nothing (handler e).
Proof.
  intros H1 H2. destruct e; cbn [handler]; cbn in H1, H2; try contradiction.
  - intros s. unfold on_afterSwap. run_js.
    destruct (target_id =? modalContentId (CONFIG s));
      [> apply nowrite_showModal | reflexivity].
  - intros s. rewrite on_beforeSwap_eq. reflexivity.
  - unfold on_responseError.
    apply nowrite_bind; [apply nowrite_logError | intros _].
    apply nowrite_bind; [apply nowrite_showSweetAlert | intros _].
    apply nowrite_hideModal.
  - unfold on_sendError.
    apply nowrite_bind; [apply nowrite_logError | intros _].
    apply nowrite_showSweetAlert.
  - unfold on_timeout.
    apply nowrite_bind; [apply nowrite_logError | intros _].
    apply nowrite_bind; [apply nowrite_showSweetAlert | intros _].
    apply nowrite_hideModal.
  - apply nowrite_showSweetAlert.
  - apply nowrite_hideModal.
  - unfold on_DOMContentLoaded.
    apply nowrite_bind; [apply nowrite_initModal | intros _].
    apply nowrite_log.
Qed.

(** The only writes the script's listeners make to the page are innerHTML
    assignments to the content element: whatever the event and the state, a
    listener makes at most one assignment, that one is to the element whose
    id is CONFIG.modalContentId, and only the before-request and hidden
    listeners make one at all. *)
Theorem listeners_write_only_content (e : event) (s : state) :
  exists w,
    writes (out (final (handler e s))) = (writes (out s) ++ w)%list
    /\ Forall (fun x => fst x = modalContentId (CONFIG s)) w
    /\ (length w <= 1)%nat
    /\ (name_of e <> htmx_beforeRequest -> name_of e <> hidden_bs_modal -> w = []).
Proof.
  assert (Hn : name_of e <> htmx_beforeRequest -> name_of e <> hidden_bs_modal ->
               exists w,
                 writes (out (final (handler e s))) = (writes (out s) ++ w)%list
                 /\ Forall (fun x => fst x = modalContentId (CONFIG s)) w
                 /\ (length w <= 1)%nat
                 /\ (name_of e <> htmx_beforeRequest ->
                     name_of e <> hidden_bs_modal -> w = [])).
  { intros H1 H2. exists []. rewrite (nowrite_handler e H1 H2 s), app_nil_r.
    split; [reflexivity |]. split; [constructor |]. split; [cbn; lia | reflexivity]. }
  destruct e; try (apply Hn; discriminate).
  - cbn [handler]. unfold on_beforeRequest. run_js.
    destruct (target_id =? modalContentId (CONFIG s)).
    + rewrite showModalLoading_writes. eexists. split; [reflexivity |].
      destruct (innerHTML s (modalContentId (CONFIG s))); cbn;
        (split; [repeat constructor |]); (split; [lia |]);
        intros F; contradiction.
    + exists []. cbn. rewrite app_nil_r. split; [reflexivity |].
      split; [constructor |]. split; [lia |]. intros F; contradiction.
  - cbn [handler]. unfold on_hidden_bs_modal.
    rewrite clearModalContent_writes. eexists. split; [reflexivity |].
    destruct (innerHTML s (modalContentId (CONFIG s))); cbn;
      (split; [repeat constructor |]); (split; [lia |]);
      intros _ F; contradiction.
Qed.

Lemma dom_set_twice (d : list (element * string)) (id h h' : string) :
  dom_set (dom_set d id h) id h' = dom_set d id h'.
Proof.
  induction d as [| [id' h0] d IH]; simpl.
  - reflexivity.
  - destruct (id =? id') eqn:E; simpl; rewrite E.
    + reflexivity.
    + rewrite IH. reflexivity.
Qed.

(** What the two content operations do to the page and leave of the
    configuration. *)
Lemma clearModalContent_body (t : state) :
  CONFIG (final (clearModalContent t)) = CONFIG t
  /\ match innerHTML t (modalContentId (CONFIG t)) with
     | Some _ =>
         document_body (final (clearModalContent t))
         = option_map (fun d => dom_set d (modalContentId (CONFIG t)) "")
                      (document_body t)
         /\ innerHTML (final (clearModalContent t)) (modalContentId (CONFIG t))
            = Some ""
     | None => document_body (final (clearModalContent t)) = document_body t
     end.
Proof.
  rewrite clearModalContent_eq.
  destruct (innerHTML t (modalContentId (CONFIG t))) as [h |] eqn:E; cbn [final].
  - split; [reflexivity |]. split.
    + unfold body_with. cbn. destruct (document_body t); reflexivity.
    + exact (innerHTML_body_with _ "" h
               (with_calls (calls t ++ [call_clearModalContent]) t) E).
  - split; reflexivity.
Qed.

Lemma showModalLoading_body (t : state) :
  CONFIG (final (showModalLoading t)) = CONFIG t
  /\ match innerHTML t (modalContentId (CONFIG t)) with
     | Some _ =>
         document_body (final (showModalLoading t))
         = option_map (fun d => dom_set d (modalContentId (CONFIG t)) loading_html)
                      (document_body t)
         /\ innerHTML (final (showModalLoading t)) (modalContentId (CONFIG t))
            = Some loading_html
     | None => document_body (final (showModalLoading t)) = document_body t
     end.
Proof.
  rewrite showModalLoading_eq.
  destruct (innerHTML t (modalContentId (CONFIG t))) as [h |] eqn:E; cbn [final].
  - split; [reflexivity |]. split.
    + unfold body_with. cbn. destruct (document_body t); reflexivity.
    + exact (innerHTML_body_with _ loading_html h
               (with_calls (calls t ++ [call_showModalLoading]) t) E).
  - split; reflexivity.
Qed.

(** Clearing discards whatever the content element held: clearing twice
    leaves the page as clearing once does, clearing after the spinner was
    put in leaves the page as clearing alone does, and putting the spinner in
    after clearing leaves the page as putting it in alone does. *)
Theorem clear_and_loading_overwrite (s : state) :
  let s1 := final (clearModalContent s) in
  let s2 := final (showModalLoading s) in
  document_body (final (clearModalContent s1)) = document_body s1
  /\ document_body (final (clearModalContent s2)) = document_body s1
  /\ document_body (final (showModalLoading s1)) = document_body s2
  /\ document_body (final (showModalLoading s2)) = document_body s2.
Proof.
  intros s1 s2.
  destruct (clearModalContent_body s) as [C1 B1].
  destruct (showModalLoading_body s) as [C2 B2].
  destruct (clearModalContent_body s1) as [_ B11].
  destruct (clearModalContent_body s2) as [_ B21].
  destruct (showModalLoading_body s1) as [_ B12].
  destruct (showModalLoading_body s2) as [_ B22].
  fold s1 in C1, B1. fold s2 in C2, B2.
  rewrite C1 in B11, B12. rewrite C2 in B21, B22.
  destruct (innerHTML s (modalContentId (CONFIG s))) as [h |] eqn:E.
  - destruct B1 as [B1 I1]. destruct B2 as [B2 I2].
    rewrite I1 in B11, B12. rewrite I2 in B21, B22.
    destruct B11 as [B11 _], B12 as [B12 _], B21 as [B21 _], B22 as [B22 _].
    rewrite B11, B12, B21, B22, B1, B2.
    destruct (document_body s) as [d |]; cbn; rewrite ?dom_set_twice;
      repeat split.
  - assert (I1 : innerHTML s1 (modalContentId (CONFIG s)) = None)
      by (unfold innerHTML in *; rewrite B1; exact E).
    assert (I2 : innerHTML s2 (modalContentId (CONFIG s)) = None)
      by (unfold innerHTML in *; rewrite B2; exact E).
    rewrite I1 in B11, B12. rewrite I2 in B21, B22.
    rewrite B11, B12, B21, B22, B1, B2. repeat split.
Qed.

(** ** Logging *)

Lemma console_logs_app (l1 l2 : list effect) :
  console_logs (l1 ++ l2) = (console_logs l1 ++ console_logs l2)%list.
Proof. unfold console_logs. apply filter_app. Qed.

(** With logging switched off, [showModal], [hideModal], [clearModalContent],
    [initModal] and a [showSweetAlert] that reaches SweetAlert2 write no
    console.log line. Errors are not covered by the switch: showing an
    uninitialized modal still writes its error line, and the console
    fallback of [showSweetAlert] still writes both its error line and its
    "[KIND] title: message" line, KIND being the kind in upper case when the
    kind is made of ASCII characters. *)
Theorem logging_switch_covers_log_only (s : state) :
  enableLogging (CONFIG s) = false ->
  console_logs (out (final (showModal s))) = console_logs (out s)
  /\ console_logs (out (final (hideModal s))) = console_logs (out s)
  /\ console_logs (out (final (clearModalContent s))) = console_logs (out s)
  /\ console_logs (out (final (initModal s))) = console_logs (out s)
  /\ (forall message type title,
        Swal_defined s = true ->
        console_logs (out (final (showSweetAlert message type title s)))
        = console_logs (out s))
  /\ (forall message type title,
        Swal_defined s = false ->
        exists KIND,
          console_logs (out (final (showSweetAlert message type title s)))
          = (console_logs (out s) ++
             [console_log ("[" ++ KIND ++ "] "
                           ++ JS.or_string title "" ++ ": " ++ message)])%list
          /\ (ascii_only (kind_used type) = true ->
              KIND = JS.toUpperCase (kind_used type))
          /\ console_errors (out (final (showSweetAlert message type title s)))
             = (console_errors (out s) ++
                [console_error
                   "[HTMX Modal] SweetAlert2 not loaded - falling back to console"])%list)
  /\ (modalInstance s = None ->
      console_errors (out (final (showModal s)))
      = (console_errors (out s) ++
         [console_error "[HTMX Modal] Cannot show modal - instance not initialized"])%list).
Proof.
  intros H.
  rewrite showModal_eq, hideModal_eq, clearModalContent_eq, initModal_eq.
  unfold logged. rewrite H.
  split; [destruct (modalInstance s); cbn; rewrite ?console_logs_app; cbn;
          rewrite ?app_nil_r; reflexivity |].
  split; [destruct (modalInstance s); cbn; rewrite ?console_logs_app; cbn;
          rewrite ?app_nil_r; reflexivity |].
  split; [destruct (innerHTML s (modalContentId (CONFIG s))); cbn;
          rewrite ?console_logs_app; cbn; rewrite ?app_nil_r; reflexivity |].
  split; [destruct (modalElement s), (bootstrap_defined s); cbn;
          rewrite ?console_logs_app; cbn; rewrite ?app_nil_r; reflexivity |].
  split; [| split].
  - intros message type title HS.
    destruct (showSweetAlert_fire_eq message type title s HS) as (o & Heq & _).
    rewrite Heq. unfold logged. rewrite H. cbn.
    rewrite console_logs_app. cbn. rewrite app_nil_r. reflexivity.
  - intros message type title HS.
    exists (JS.toUpperCase (kind_used type)).
    rewrite showSweetAlert_fallback_eq by exact HS. cbn.
    rewrite console_logs_app, console_errors_app.
    split; [reflexivity |]. split; reflexivity.
  - intros Hn. rewrite Hn. cbn. rewrite console_errors_app. reflexivity.
Qed.

Lemma logging_switch_covers_log_only_witness :
  enableLogging (CONFIG (with_logging false (loaded page_full))) = false
  /\ console_logs (out (final (showModal (with_logging false (loaded page_full)))))
     = console_logs (out (with_logging false (loaded page_full)))
  /\ shows (out (final (showModal (with_logging false (loaded page_full))))) = 1%nat.
Proof.
  assert (H : enableLogging (CONFIG (with_logging false (loaded page_full))) = false)
    by reflexivity.
  split; [exact H |].
  split; [exact (proj1 (logging_switch_covers_log_only _ H)) |].
  vm_compute. reflexivity.
Defined.

(** ** Pending timers *)

Lemma timers_bind {A B} (m : M A) (k : A -> M B) :
  keeps_timers m -> (forall a, keeps_timers (k a)) -> keeps_timers (bind m k).
Proof.
  intros Hm Hk s. unfold bind. specialize (Hm s).
  destruct (m s) as [a s1 | e s1]; cbn in *.
  - rewrite (Hk a s1). exact Hm.
  - exact Hm.
Qed.

Lemma timers_logError (message : string) (e : option string) :
  keeps_timers (logError message e).
Proof. intros s. unfold logError. destruct e; reflexivity. Qed.

Lemma timers_showModal : keeps_timers showModal.
Proof. intros s. rewrite showModal_eq. destruct (modalInstance s); reflexivity. Qed.

Lemma timers_hideModal : keeps_timers hideModal.
Proof. intros s. rewrite hideModal_eq. destruct (modalInstance s); reflexivity. Qed.

Lemma timers_clearModalContent : keeps_timers clearModalContent.
Proof.
  intros s. rewrite clearModalContent_eq.
  destruct (innerHTML s (modalContentId (CONFIG s))); reflexivity.
Qed.

Lemma timers_showModalLoading : keeps_timers showModalLoading.
Proof.
  intros s. rewrite showModalLoading_eq.
  destruct (innerHTML s (modalContentId (CONFIG s))); reflexivity.
Qed.

Lemma timers_showSweetAlert (message : string) (type title : option string) :
  keeps_timers (showSweetAlert message type title).
Proof.
  intros s. destruct (Swal_defined s) eqn:E.
  - destruct (showSweetAlert_fire_eq message type title s E) as (o & Heq & _).
    rewrite Heq. reflexivity.
  - rewrite showSweetAlert_fallback_eq by exact E. reflexivity.
Qed.

Lemma scheduled_expected (xhr : XMLHttpRequest) :
  Forall timer_expected (scheduled xhr).
Proof.
  unfold scheduled. apply Forall_app. split.
  - destruct (getResponseHeader xhr "HX-Alert-Message") as [m |]; [| constructor].
    unfold JS.truthy. destruct (String.eqb_spec m "") as [E | E]; cbn;
      [constructor |].
    constructor; [| constructor]. split; [reflexivity | exact E].
  - destruct (getResponseHeader xhr "HX-Close-Modal") as [v |]; [| constructor].
    destruct (v =? "true"); constructor; [reflexivity | constructor].
Qed.

Lemma remove_nth_expected {A} (P : A -> Prop) (n : nat) (l : list A) :
  Forall P l -> Forall P (remove_nth n l).
Proof.
  revert n. induction l as [| x l IH]; intros n H; destruct n; cbn;
    try constructor; inversion H; subst; auto.
Qed.

(** Every handler but the pre-swap one leaves the pending timers alone; the
    pre-swap one adds expected timers only. *)
Lemma handler_timers (e : event) (s : state) :
  Forall timer_expected (timers s) ->
  Forall timer_expected (timers (final (handler e s))).
Proof.
  intros H.
  assert (K : forall m : M unit, keeps_timers m ->
                Forall timer_expected (timers (final (m s)))).
  { intros m Hm. rewrite (Hm s). exact H. }
  destruct e; cbn [handler].
  - apply K. intros t. unfold on_afterSwap. run_js.
    destruct (target_id =? modalContentId (CONFIG t));
      [> apply timers_showModal | reflexivity].
  - apply K. intros t. unfold on_beforeRequest. run_js.
    destruct (target_id =? modalContentId (CONFIG t));
      [> apply timers_showModalLoading | reflexivity].
  - rewrite on_beforeSwap_eq. cbn. apply Forall_app. split;
      [exact H | apply scheduled_expected].
  - apply K. unfold on_responseError.
    apply timers_bind; [apply timers_logError | intros _].
    apply timers_bind; [apply timers_showSweetAlert | intros _].
    apply timers_hideModal.
  - apply K. unfold on_sendError.
    apply timers_bind; [apply timers_logError | intros _].
    apply timers_showSweetAlert.
  - apply K. unfold on_timeout.
    apply timers_bind; [apply timers_logError | intros _].
    apply timers_bind; [apply timers_showSweetAlert | intros _].
    apply timers_hideModal.
  - apply K. apply timers_showSweetAlert.
  - apply K. apply timers_hideModal.
  - apply K. apply timers_clearModalContent.
  - apply K. unfold on_DOMContentLoaded. apply timers_bind.
    + intros t. rewrite initModal_eq.
      destruct (modalElement t), (bootstrap_defined t); reflexivity.
    + intros _ t. rewrite log_eq. reflexivity.
Qed.

Lemma api_timers {A} (m : M A) (s : state) :
  keeps_timers m ->
  Forall timer_expected (timers s) ->
  Forall timer_expected (timers (final (api m s))).
Proof.
  intros Hm H. unfold api. destruct (HTMXModal_exposed s); [| exact H].
  specialize (Hm s). destruct (m s); cbn in *; rewrite Hm; exact H.
Qed.

Lemma loaded_timers (p : page) : timers (loaded p) = [].
Proof. load_cases p; reflexivity. Qed.

(** In every reachable state each pending timer is one of the two the script
    sets: the hide after 100 ms, or an alert after 200 ms that carries a
    non-empty message. *)
Theorem pending_timers_expected (s : state) :
  reachable s -> Forall timer_expected (timers s).
Proof.
  induction 1 as [p | i s Hs IH].
  - rewrite loaded_timers. constructor.
  - unfold step. destruct i; cbn [run].
    + unfold dispatch. destruct (registered (name_of e) s);
        [apply handler_timers, IH | exact IH].
    + unfold fire_timer. run_js.
      destruct (nth_error (timers s) n) as [[d cb] |]; [| exact IH].
      run_js.
      assert (Hr : Forall timer_expected
                     (timers (with_timers (remove_nth n (timers s)) s)))
        by (apply remove_nth_expected, IH).
      destruct cb; cbn [run_callback].
      * rewrite (timers_hideModal _). exact Hr.
      * rewrite (timers_showSweetAlert _ _ _ _). exact Hr.
    + apply api_timers; [apply timers_showModal | exact IH].
    + apply api_timers; [apply timers_hideModal | exact IH].
    + apply api_timers; [apply timers_clearModalContent | exact IH].
    + apply api_timers; [apply timers_showSweetAlert | exact IH].
    + apply api_timers; [| exact IH]. intros t. rewrite showConfirmation_eq.
      destruct (Swal_defined t); reflexivity.
    + apply api_timers; [| exact IH]. intros t. reflexivity.
    + exact IH.
    + unfold modify, set_shown. cbn. destruct (modalInstance s); exact IH.
Qed.

Lemma pending_timers_expected_witness :
  reachable (step (in_event (ev_beforeSwap xhr_error_close)) (loaded page_full))
  /\ timers (step (in_event (ev_beforeSwap xhr_error_close)) (loaded page_full))
     = [(200%Z, cb_alert "Not allowed" (Some "error") None); (100%Z, cb_hideModal)]
  /\ Forall timer_expected
       (timers (step (in_event (ev_beforeSwap xhr_error_close)) (loaded page_full))).
Proof.
  assert (Hr : reachable (step (in_event (ev_beforeSwap xhr_error_close))
                            (loaded page_full)))
    by (apply reach_step, reach_loaded).
  split; [exact Hr |]. split; [vm_compute; reflexivity |].
  exact (pending_timers_expected _ Hr).
Defined.

(** ** Worked inputs *)

(** A kind that names a member inherited from [Object.prototype] is looked
    up successfully in all three tables: the option values are that member,
    not the info fallbacks. *)
Example inherited_kind_skips_fallback :
  exists o,
    alerts (out (final (showSweetAlert "Saved" (Some "constructor") None
                          (loaded page_full)))) = [o]
    /\ Swal.icon o = JS.VInherited "constructor"
    /\ Swal.title o = JS.VInherited "constructor"
    /\ Swal.confirmButtonColor o = JS.VInherited "constructor".
Proof.
  eexists. split; [vm_compute; reflexivity |]. cbn. repeat split.
Qed.

(** A response with HX-Close-Modal: true on a page with the modal shown: the
    handler only schedules the hide, and the timer then hides the modal. *)
Example close_header_then_timer :
  let xhr := {| getResponseHeader :=
                  fun name => if name =? "HX-Close-Modal" then Some "true" else None |} in
  let s0 := step in_show (loaded page_full) in
  let s1 := step (in_event (ev_beforeSwap xhr)) s0 in
  let s2 := step (in_timer 0) s1 in
  option_map Modal.isShown (modalInstance s0) = Some true
  /\ timers s1 = [(100%Z, cb_hideModal)]
  /\ option_map Modal.isShown (modalInstance s1) = Some true
  /\ timers s2 = []
  /\ option_map Modal.isShown (modalInstance s2) = Some false.
Proof.
  vm_compute. repeat split.
Qed.

(** A script loaded before the page has a body stops at the first listener
    it puts on the body: the HTMX listeners are in place, nothing else is. *)
Example loaded_without_body :
  let s := loaded {| p_body := None; p_loading := true;
                     p_bootstrap := true; p_Swal := true |} in
  throws (main (boot {| p_body := None; p_loading := true;
                        p_bootstrap := true; p_Swal := true |})) = true
  /\ listeners s = [htmx_afterSwap; htmx_beforeRequest; htmx_beforeSwap;
                    htmx_responseError; htmx_sendError; htmx_timeout]
  /\ HTMXModal_exposed s = false
  /\ modalElement s = None.
Proof.
  vm_compute. repeat split.
Qed.
